(** * Dependency-manifest downloader: a shallow embedding and its properties

    The development follows the script that scans a directory of recovered
    sources for dependency manifests ([findManifestFiles]), extracts the
    declared dependencies ([extractDependencies]) and downloads each of them
    ([downloadDependency], [tryDownload]).

    Strings are sequences of code units below 256.  The JavaScript engine's
    regular expressions are embedded as syntax trees run by a backtracking
    matcher with the priorities of the ECMAScript semantics; the libraries the
    script calls ([vm.runInContext], [JSON.parse], [yaml.load], [path.join],
    the WHATWG URL parser) and what it meets around it (the network, the
    timers of its requests, the disk) are parameters.  Where a property
    depends on what [path.join] does, the function is the one of Node's
    [path.posix]. *)

From Stdlib Require Import Ascii.
From stdpp Require Import gmap strings list fin_maps.

Set Warnings "-register-all".
Local Open Scope nat_scope.

(** ** Characters and strings *)

Module Chars.

Definition dquote : ascii := ascii_of_nat 34.
Definition squote : ascii := ascii_of_nat 39.

Definition code (c : ascii) : nat := nat_of_ascii c.

Definition in_range (lo hi : nat) (c : ascii) : bool :=
  (lo <=? code c) && (code c <=? hi).

Definition is_upper (c : ascii) : bool := in_range 65 90 c.
Definition is_lower (c : ascii) : bool := in_range 97 122 c.
Definition is_digit (c : ascii) : bool := in_range 48 57 c.

(** [\w] *)
Definition is_word (c : ascii) : bool :=
  is_upper c || is_lower c || is_digit c || (code c =? 95).

(** [\s], which is also the set removed by [String.prototype.trim]: tab, line
    feed, vertical tab, form feed, carriage return, space, no-break space. *)
Definition is_space (c : ascii) : bool :=
  in_range 9 13 c || (code c =? 32) || (code c =? 160).

Definition is_quote (c : ascii) : bool :=
  (code c =? 34) || (code c =? 39).

Definition to_lower (c : ascii) : ascii :=
  if is_upper c then ascii_of_nat (code c + 32) else c.

Definition eqc (a b : ascii) : bool := code a =? code b.

(** Equality of characters under the [i] flag. *)
Definition eqc_i (a b : ascii) : bool := eqc (to_lower a) (to_lower b).

End Chars.

Module Str.

Fixpoint drop (n : nat) (s : string) : string :=
  match n, s with
  | 0, _ => s
  | S n', String _ s' => drop n' s'
  | S _, EmptyString => EmptyString
  end.

Fixpoint take (n : nat) (s : string) : string :=
  match n, s with
  | 0, _ => EmptyString
  | S n', String a s' => String a (take n' s')
  | S _, EmptyString => EmptyString
  end.

(** [s.slice(i, j)] for [i <= j]. *)
Definition slice (i j : nat) (s : string) : string := take (j - i) (drop i s).

Fixpoint is_prefix (p s : string) : bool :=
  match p, s with
  | EmptyString, _ => true
  | String a p', String b s' => Chars.eqc a b && is_prefix p' s'
  | String _ _, EmptyString => false
  end.

Fixpoint forallb (f : ascii -> bool) (s : string) : bool :=
  match s with
  | EmptyString => true
  | String a s' => f a && forallb f s'
  end.

Fixpoint existsb (f : ascii -> bool) (s : string) : bool :=
  match s with
  | EmptyString => false
  | String a s' => f a || existsb f s'
  end.

Fixpoint rev_onto (s acc : string) : string :=
  match s with
  | EmptyString => acc
  | String a s' => rev_onto s' (String a acc)
  end.

Definition rev (s : string) : string := rev_onto s EmptyString.

Fixpoint trim_start (s : string) : string :=
  match s with
  | String a s' => if Chars.is_space a then trim_start s' else s
  | EmptyString => EmptyString
  end.

(** [s.trim()] *)
Definition trim (s : string) : string := rev (trim_start (rev (trim_start s))).

Fixpoint repeat (a : ascii) (n : nat) : string :=
  match n with
  | 0 => EmptyString
  | S n' => String a (repeat a n')
  end.

Definition of_char (a : ascii) : string := String a EmptyString.

(** A text between double quotes. *)
Definition quoted (s : string) : string :=
  String Chars.dquote (s +:+ of_char Chars.dquote).

End Str.

(** ** Regular expressions *)

Module Regex.

(** The fragment of the pattern syntax the script uses.  A character class is
    its membership test; [Group n r] is the [n]-th capturing group; [Star] is
    the greedy [*]; [Bol] is [^] without the [m] flag. *)
Inductive regex : Type :=
| Eps
| Chr (cls : ascii -> bool)
| Seq (r1 r2 : regex)
| Alt (r1 r2 : regex)
| Star (r : regex)
| Group (n : nat) (r : regex)
| Backref (n : nat)
| Bol.

Definition Plus (r : regex) : regex := Seq r (Star r).
Definition Opt (r : regex) : regex := Alt r Eps.

Fixpoint seqs (rs : list regex) : regex :=
  match rs with
  | [] => Eps
  | [r] => r
  | r :: rs' => Seq r (seqs rs')
  end.

Fixpoint alts (r : regex) (rs : list regex) : regex :=
  match rs with
  | [] => r
  | r' :: rs' => Alt r (alts r' rs')
  end.

Definition Lit1 (a : ascii) : regex := Chr (Chars.eqc a).
Definition Lit1i (a : ascii) : regex := Chr (Chars.eqc_i a).

Fixpoint Lit (s : string) : regex :=
  match s with
  | EmptyString => Eps
  | String a EmptyString => Lit1 a
  | String a s' => Seq (Lit1 a) (Lit s')
  end.

(** A literal under the [i] flag. *)
Fixpoint LitI (s : string) : regex :=
  match s with
  | EmptyString => Eps
  | String a EmptyString => Lit1i a
  | String a s' => Seq (Lit1i a) (LitI s')
  end.

(** Captures: the most recent binding of a group comes first. *)
Definition caps : Type := list (nat * string).

Fixpoint capture (n : nat) (c : caps) : option string :=
  match c with
  | [] => None
  | (m, s) :: c' => if n =? m then Some s else capture n c'
  end.

Section Matcher.

Context {R : Type}.

(** The backtracking matcher in continuation-passing style: [run r pos s c k]
    matches [r] at the front of [s], the rest of the subject from offset
    [pos], and hands the new offset, rest and captures to [k]; [None] makes
    the matcher try its next alternative.  An iteration of [*] that consumes
    nothing is rejected, as the ECMAScript semantics does. *)
Fixpoint run (r : regex) (pos : nat) (s : string) (c : caps)
    (k : nat -> string -> caps -> option R) {struct r} : option R :=
  match r with
  | Eps => k pos s c
  | Chr cls =>
      match s with
      | String a s' => if cls a then k (S pos) s' c else None
      | EmptyString => None
      end
  | Seq r1 r2 => run r1 pos s c (fun pos' s' c' => run r2 pos' s' c' k)
  | Alt r1 r2 =>
      match run r1 pos s c k with
      | Some x => Some x
      | None => run r2 pos s c k
      end
  | Star r1 =>
      (fix star (n : nat) (pos : nat) (s : string) (c : caps) {struct n}
         : option R :=
         match n with
         | 0 => k pos s c
         | S n' =>
             match run r1 pos s c (fun pos' s' c' =>
                     if String.length s' <? String.length s
                     then star n' pos' s' c' else None) with
             | Some x => Some x
             | None => k pos s c
             end
         end) (String.length s) pos s c
  | Group n r1 =>
      run r1 pos s c (fun pos' s' c' =>
        k pos' s' ((n, Str.take (pos' - pos) s) :: c'))
  | Backref n =>
      match capture n c with
      | None => k pos s c
      | Some w =>
          if Str.is_prefix w s
          then k (pos + String.length w) (Str.drop (String.length w) s) c
          else None
      end
  | Bol => if pos =? 0 then k pos s c else None
  end.

End Matcher.

(** The groups a pattern can set, and the least number of code units a match
    of it takes up. *)
Fixpoint groups (r : regex) : list nat :=
  match r with
  | Eps | Chr _ | Backref _ | Bol => []
  | Seq r1 r2 | Alt r1 r2 => groups r1 ++ groups r2
  | Star r1 => groups r1
  | Group n r1 => n :: groups r1
  end.

Fixpoint min_len (r : regex) : nat :=
  match r with
  | Eps | Backref _ | Bol | Star _ => 0
  | Chr _ => 1
  | Seq r1 r2 => min_len r1 + min_len r2
  | Alt r1 r2 => Nat.min (min_len r1) (min_len r2)
  | Group _ r1 => min_len r1
  end.

(** A match: where it starts, where it ends, and its captures. *)
Record rmatch : Type := MkMatch {
  m_index : nat;
  m_end : nat;
  m_caps : caps
}.

Definition match_at (r : regex) (pos : nat) (s : string) : option rmatch :=
  run r pos s [] (fun pos' _ c => Some (MkMatch pos pos' c)).

(** The leftmost match starting at offset [pos] or later; [s] is the subject
    from [pos] on. *)
Fixpoint search (r : regex) (pos : nat) (s : string) : option rmatch :=
  match match_at r pos s with
  | Some m => Some m
  | None =>
      match s with
      | String _ s' => search r (S pos) s'
      | EmptyString => None
      end
  end.

Definition search_from (r : regex) (i : nat) (s : string) : option rmatch :=
  if String.length s <? i then None else search r i (Str.drop i s).

(** [match[0]] and [match[n]]; an unset group is [undefined], here [None]. *)
Definition whole (s : string) (m : rmatch) : string :=
  Str.slice (m_index m) (m_end m) s.

Definition group (n : nat) (m : rmatch) : option string := capture n (m_caps m).

(** A regular-expression object: its pattern and its [g] flag.  The [i] flag
    is part of the pattern's character tests. *)
Record jsregex : Type := MkRe { re_pat : regex; re_global : bool }.

(** [re.exec(s)] with [re.lastIndex = i]: the match and the new [lastIndex].
    Without the [g] flag the search starts at 0 and [lastIndex] stays as it
    is. *)
Definition exec (re : jsregex) (s : string) (i : nat) : option rmatch * nat :=
  if re_global re then
    match search_from (re_pat re) i s with
    | Some m => (Some m, m_end m)
    | None => (None, 0)
    end
  else (search_from (re_pat re) 0 s, i).

(** [re.test(s)] of a fresh regular expression. *)
Definition test (r : regex) (s : string) : bool :=
  match search_from r 0 s with Some _ => true | None => false end.

(** [s.matchAll(re)] for a global [re]: after an empty match the search
    resumes one code unit further. *)
Fixpoint matchAll_from (fuel : nat) (r : regex) (s : string) (i : nat)
    : list rmatch :=
  match fuel with
  | 0 => []
  | S fuel' =>
      match search_from r i s with
      | None => []
      | Some m =>
          m :: matchAll_from fuel' r s
                 (if m_end m =? m_index m then S (m_end m) else m_end m)
      end
  end.

Definition matchAll (r : regex) (s : string) : list rmatch :=
  matchAll_from (S (String.length s)) r s 0.

End Regex.

(** ** JavaScript values *)

Module Js.

(** The values the parsers hand back.  A number is kept as the text
    [String(n)] gives for it: the script only tests numbers for truth and
    splices them into template literals.  An object is its list of own
    enumerable properties in property order, with distinct keys; its
    prototype is [Object.prototype].  The values the parsers hand back are
    plain data: no getters, no functions.  A function comes up in one place,
    where a computed key reads a property that a value inherits (see
    [inherited]); it is kept as the text [String(f)] gives for it. *)
Inductive JsVal : Type :=
| JUndefined
| JNull
| JBool (b : bool)
| JNum (shown : string)
| JStr (s : string)
| JObj (props : list (string * JsVal))
| JArr (elems : list JsVal)
| JFunc (shown : string).

Definition str_eqb (a b : string) : bool := String.eqb a b.

(** [ToBoolean] *)
Definition truthy (v : JsVal) : bool :=
  match v with
  | JUndefined | JNull => false
  | JBool b => b
  | JNum shown => negb (str_eqb shown "0" || str_eqb shown "NaN")
  | JStr s => negb (str_eqb s "")
  | JObj _ | JArr _ | JFunc _ => true
  end.

Fixpoint assoc (key : string) (props : list (string * JsVal)) : JsVal :=
  match props with
  | [] => JUndefined
  | (k, v) :: props' => if str_eqb key k then v else assoc key props'
  end.

(** Whether [key] is among the own properties listed. *)
Definition has_own (key : string) {A : Type} (props : list (string * A))
    : bool :=
  existsb (fun p => str_eqb key (fst p)) props.

(** The text [String(f)] gives for a built-in function. *)
Definition native (name : string) : JsVal :=
  JFunc ("function " +:+ name +:+ "() { [native code] }").

(** The methods of [Object.prototype], which every value other than [null]
    and [undefined] inherits under these names, from [Object.prototype] or
    from a prototype nearer to it that defines a method of the same name. *)
Definition object_methods : list string :=
  [ "__defineGetter__"; "__defineSetter__"; "hasOwnProperty";
    "__lookupGetter__"; "__lookupSetter__"; "isPrototypeOf";
    "propertyIsEnumerable"; "toString"; "valueOf"; "toLocaleString" ].

(** The name of the constructor of a value. *)
Definition constructor_name (v : JsVal) : string :=
  match v with
  | JBool _ => "Boolean"
  | JNum _ => "Number"
  | JStr _ => "String"
  | JArr _ => "Array"
  | JFunc _ => "Function"
  | _ => "Object"
  end.

(** The prototype of a value, as a value with the truth and the text of
    that prototype: [Object.prototype] is an object without enumerable
    properties, [Array.prototype] an empty array, [String.prototype],
    [Number.prototype] and [Boolean.prototype] are objects that convert to
    the texts of the empty string, of [0] and of [false], and
    [Function.prototype] is a function without a name. *)
Definition prototype_of (v : JsVal) : JsVal :=
  match v with
  | JBool _ => JArr [JBool false]
  | JNum _ => JArr [JNum "0"]
  | JStr _ | JArr _ => JArr []
  | JFunc _ => native ""
  | _ => JObj []
  end.

(** [v[key]] for a key that is no own property of [v], a value other than
    [null] and [undefined]: what [v] inherits under the names that
    [Object.prototype] defines.  What arrays, strings, numbers, booleans and
    functions inherit under further names from their own prototypes, a list
    that changes with the version of the engine, is left out. *)
Definition inherited (v : JsVal) (key : string) : JsVal :=
  if existsb (str_eqb key) object_methods then native key
  else if str_eqb key "constructor" then native (constructor_name v)
  else if str_eqb key "__proto__" then prototype_of v
  else JUndefined.

Definition digit (n : nat) : ascii := ascii_of_nat (48 + n).

Fixpoint dec_aux (fuel n : nat) (acc : string) : string :=
  match fuel with
  | 0 => acc
  | S fuel' =>
      let acc' := String (digit (n mod 10)) acc in
      if n <? 10 then acc' else dec_aux fuel' (n / 10) acc'
  end.

(** The decimal text of an array index. *)
Definition dec (n : nat) : string := dec_aux (S n) n "".

Fixpoint indexed {A : Type} (i : nat) (l : list A) : list (string * A) :=
  match l with
  | [] => []
  | x :: l' => (dec i, x) :: indexed (S i) l'
  end.

Fixpoint chars (s : string) : list JsVal :=
  match s with
  | EmptyString => []
  | String a s' => JStr (Str.of_char a) :: chars s'
  end.

(** [v.key] for a key that is neither an index nor [length]: the own property
    of an object, [undefined] on any other value, a [TypeError] ([None]) on
    [null] and [undefined]. *)
Definition get (v : JsVal) (key : string) : option JsVal :=
  match v with
  | JUndefined | JNull => None
  | JObj props => Some (assoc key props)
  | _ => Some JUndefined
  end.

(** [v?.key] *)
Definition get_opt (v : JsVal) (key : string) : JsVal :=
  match get v key with Some x => x | None => JUndefined end.

(** [v?.[key]] for a computed key: the own property of that name when there
    is one (arrays and strings also answer to their indices and to
    [length]), else the inherited one. *)
Definition index_opt (v : JsVal) (key : string) : JsVal :=
  match v with
  | JUndefined | JNull => JUndefined
  | JObj props =>
      if has_own key props then assoc key props else inherited v key
  | JArr elems =>
      if str_eqb key "length" then JNum (dec (length elems))
      else if has_own key (indexed 0 elems) then assoc key (indexed 0 elems)
      else inherited v key
  | JStr s =>
      if str_eqb key "length" then JNum (dec (String.length s))
      else if has_own key (indexed 0 (chars s))
      then assoc key (indexed 0 (chars s))
      else inherited v key
  | JBool _ | JNum _ | JFunc _ => inherited v key
  end.

(** [Object.entries(v)]; a [TypeError] ([None]) on [null] and [undefined]. *)
Definition entries (v : JsVal) : option (list (string * JsVal)) :=
  match v with
  | JUndefined | JNull => None
  | JObj props => Some props
  | JArr elems => Some (indexed 0 elems)
  | JStr s => Some (indexed 0 (chars s))
  | JBool _ | JNum _ | JFunc _ => Some []
  end.

Fixpoint join (sep : string) (l : list string) : string :=
  match l with
  | [] => ""
  | [s] => s
  | s :: l' => s +:+ sep +:+ join sep l'
  end.

(** Whether the conversion a template literal applies to [v] gives a text.
    It throws a [TypeError] on an object with an own property [toString]:
    that property is plain data and cannot be called, and [valueOf], own or
    inherited, gives no primitive either.  An array converts when its
    elements do. *)
Fixpoint converts (v : JsVal) : bool :=
  match v with
  | JObj props => negb (has_own "toString" props)
  | JArr elems => forallb converts elems
  | _ => true
  end.

(** [String(v)], the conversion a template literal applies, for a value that
    converts. *)
Fixpoint to_string (v : JsVal) : string :=
  match v with
  | JUndefined => "undefined"
  | JNull => "null"
  | JBool true => "true"
  | JBool false => "false"
  | JNum shown => shown
  | JStr s => s
  | JObj _ => "[object Object]"
  | JArr elems =>
      join "," (map (fun e => match e with
                              | JUndefined | JNull => ""
                              | _ => to_string e
                              end) elems)
  | JFunc shown => shown
  end.

(** The message of the [TypeError] of a conversion that throws. *)
Definition conversion_error : string :=
  "Cannot convert object to primitive value".

(** [a || b] *)
Definition logical_or (a b : JsVal) : JsVal := if truthy a then a else b.

End Js.

(** ** The file-system calls of Node *)

Module Node.

(** [fs.readFileSync(path, options, ...)] on a file whose content is [file]
    ([None]: the read throws).  The function has two parameters; whatever
    follows the options is not looked at, and the whole file comes back. *)
Definition readFileSync (file : option string) (encoding : string)
    (extra1 extra2 : nat) : option string := file.

End Node.

(** ** Scanning for manifests *)

Module Scanner.

Import Regex.

(** [DEPENDENCY_PATTERNS] *)
Definition DEPENDENCY_PATTERNS : list regex :=
  [ Seq (LitI "dependencie") (Opt (Lit1i "s"));
    LitI "bender";
    LitI "manifest";
    Seq (LitI "module") (Opt (Lit1i "s"));
    Seq (LitI "component") (Opt (Lit1i "s"));
    Seq (LitI "package") (Opt (Lit1i "s"));
    LitI "vendor";
    Seq (LitI "lib") (Opt (Lit1i "s"));
    Seq (LitI "external") (Opt (Lit1i "s"));
    LitI "include";
    LitI "require";
    Seq (LitI "import") (Opt (Lit1i "s")) ].

(** [/(node_modules|dist|build|\.git|\.cache)/i] *)
Definition skipped_directory : regex :=
  Group 1 (alts (LitI "node_modules")
             [LitI "dist"; LitI "build"; LitI ".git"; LitI ".cache"]).

(** [/(dependencies|depVersions|require|import)/i] *)
Definition content_keywords : regex :=
  Group 1 (alts (LitI "dependencies")
             [LitI "depVersions"; LitI "require"; LitI "import"]).

(** A directory entry: a file with its content ([None] when it cannot be
    read) or a directory with its entries, as [readdirSync] lists them.  Every
    directory of a tree can be listed. *)
Inductive dirent : Type :=
| File (name : string) (content : option string)
| Dir (name : string) (entries : list dirent).

Definition entry_name (e : dirent) : string :=
  match e with File n _ | Dir n _ => n end.

Record manifest : Type := MkManifest { path : string; type : string }.

Record scan_state : Type := MkScan {
  manifests : list manifest;
  scannedFiles : gset string
}.

Definition filenameMatch (name : string) : bool :=
  existsb (fun pattern => test pattern name) DEPENDENCY_PATTERNS.

(** The body of the [try] block: the read, then the two tests. *)
Definition contentMatch (file : option string) : bool :=
  match Node.readFileSync file "utf8" 0 1024 with
  | Some content =>
      existsb (fun pattern => test pattern content) DEPENDENCY_PATTERNS
      || test content_keywords content
  | None => false
  end.

(** What the loop does with a file entry. *)
Definition scanFile (fullPath name : string) (file : option string)
    (st : scan_state) : scan_state :=
  if filenameMatch name || contentMatch file then
    let type := if filenameMatch name then "filename" else "content" in
    MkScan (manifests st ++ [MkManifest fullPath type]) (scannedFiles st)
  else st.

Section Walk.

(** [path.join] and [path.relative] *)
Variable path_join : string -> string -> string.
Variable path_relative : string -> string -> string.

Variable dir : string.

(** One turn of the loop of [scanDirectory]. *)
Fixpoint scanEntry (currentDir : string) (entry : dirent) (st : scan_state)
    {struct entry} : scan_state :=
  let fullPath := path_join currentDir (entry_name entry) in
  let relativePath := path_relative dir fullPath in
  if decide (relativePath ∈ scannedFiles st) then st
  else
    let st := MkScan (manifests st) ({[relativePath]} ∪ scannedFiles st) in
    match entry with
    | Dir name entries =>
        if test skipped_directory name then st
        else fold_left (fun st e => scanEntry fullPath e st) entries st
    | File name file => scanFile fullPath name file st
    end.

Definition scanDirectory (currentDir : string) (entries : list dirent)
    (st : scan_state) : scan_state :=
  fold_left (fun st e => scanEntry currentDir e st) entries st.

(** [findManifestFiles(dir)] where [dir] lists [entries]. *)
Definition findManifestFiles (entries : list dirent) : list manifest :=
  manifests (scanDirectory dir entries (MkScan [] ∅)).

(** The files the walk can reach from [currentDir], which lists [entries]:
    the path the walk gives each, its name and its content. *)
Inductive located : string -> list dirent -> string -> string ->
                    option string -> Prop :=
| located_here currentDir entries name file :
    In (File name file) entries ->
    located currentDir entries (path_join currentDir name) name file
| located_below currentDir entries name sub fullPath fname file :
    In (Dir name sub) entries ->
    located (path_join currentDir name) sub fullPath fname file ->
    located currentDir entries fullPath fname file.

(** What can be said of a candidate the walk pushes: it stands for a file the
    walk reached, which its name or its content made a candidate, and its
    reason is [filename] exactly when the name matches. *)
Definition justified (currentDir : string) (entries : list dirent)
    (m : manifest) : Prop :=
  exists name file,
    located currentDir entries (path m) name file
    /\ filenameMatch name || contentMatch file = true
    /\ type m = if filenameMatch name then "filename" else "content".

End Walk.

(** [path.join] and [path.relative] on a directory without a trailing
    separator and a name without separators. *)
Definition posix_join (d n : string) : string := d +:+ "/" +:+ n.

Definition posix_relative (from to : string) : string :=
  if Str.is_prefix (from +:+ "/") to
  then Str.drop (S (String.length from)) to else to.

End Scanner.

(** ** Extracting the dependencies of a manifest *)

Module Parser.

Import Regex Js.

(** A dependency as [extractDependencies] pushes it.  A field the object
    literal leaves out reads as [undefined]. *)
Record dep : Type := MkDep {
  name : string;
  version : JsVal;
  pathPrefix : JsVal;
  baseUrl : JsVal;
  source : string
}.

(** The calls the function makes, in the order it makes them: a script handed
    to [vm.runInContext], a text handed to [JSON.parse] or to [yaml.load], a
    call of [exec] on the [i]-th of [regexPatterns]. *)
Inductive event : Type :=
| VmRun (script : string)
| JsonParse (text : string)
| YamlLoad (text : string)
| RegexExec (i : nat).

(** How a [try] block ends: by the [return] inside it, or by falling out of
    it (its end, or its [catch]). *)
Inductive flow : Type :=
| Returned (dependencies : list dep) (log : list event)
| Fallthrough (dependencies : list dep) (log : list event).

Definition nl : string := Str.of_char (ascii_of_nat 10).

(** The two template literals of [scripts], character for character. *)
Definition script_namespace (content : string) : string :=
  "(function() { " +:+ nl +:+
  "                var __WEBPACK_NAMESPACE_OBJECT__; " +:+ nl +:+
  "                " +:+ content +:+ ";" +:+ nl +:+
  "                return __WEBPACK_NAMESPACE_OBJECT__; " +:+ nl +:+
  "            })()".

Definition script_exports (content : string) : string :=
  "(function() { " +:+ nl +:+
  "                " +:+ content +:+ ";" +:+ nl +:+
  "                return module.exports || exports; " +:+ nl +:+
  "            })()".

Definition scripts (content : string) : list string :=
  [script_namespace content; script_exports content].

Definition quote : regex := Chr Chars.is_quote.
Definition not_quote : regex := Chr (fun a => negb (Chars.is_quote a)).
Definition spaces : regex := Star (Chr Chars.is_space).
Definition word : regex := Chr Chars.is_word.

Definition is_rbrace (a : ascii) : bool := Chars.eqc "}" a.

(** [/['Q]([^'Q]+)['Q]\s*:\s*['Q]([^'Q]+)['Q]/g], with Q for the double
    quote here and below. *)
Definition quoted_pair : jsregex :=
  MkRe (seqs [quote; Group 1 (Plus not_quote); quote; spaces; Lit ":"; spaces;
              quote; Group 2 (Plus not_quote); quote]) true.

(** [/(\w+)Version\s*:\s*['Q]([^'Q]+)['Q]/g] *)
Definition version_field : jsregex :=
  MkRe (seqs [Group 1 (Plus word); Lit "Version"; spaces; Lit ":"; spaces;
              quote; Group 2 (Plus not_quote); quote]) true.

(** [/(?:dependencies|depVersions)\s*:\s*{([^}]+)}/] *)
Definition block_colon : jsregex :=
  MkRe (seqs [Alt (Lit "dependencies") (Lit "depVersions"); spaces; Lit ":";
              spaces; Lit "{"; Group 1 (Plus (Chr (fun a => negb (is_rbrace a))));
              Lit "}"]) false.

(** [/(?:dependencies|depVersions)\s*=\s*{([^}]+)}/] *)
Definition block_equals : jsregex :=
  MkRe (seqs [Alt (Lit "dependencies") (Lit "depVersions"); spaces; Lit "=";
              spaces; Lit "{"; Group 1 (Plus (Chr (fun a => negb (is_rbrace a))));
              Lit "}"]) false.

Definition regexPatterns : list jsregex :=
  [quoted_pair; version_field; block_colon; block_equals].

(** The class [[\w-@\/]]. *)
Definition name_char (a : ascii) : bool :=
  Chars.is_word a || Chars.eqc "-" a || Chars.eqc "@" a || Chars.eqc "/" a.

(** [/(['Q]?)(\w[\w-@\/]+)\1\s*:\s*['Q]([^'Q]+)['Q]/g] *)
Definition dep_pair : regex :=
  seqs [Group 1 (Opt quote); Group 2 (Seq word (Plus (Chr name_char)));
        Backref 1; spaces; Lit ":"; spaces; quote; Group 3 (Plus not_quote);
        quote].

(** [/^---|:/] *)
Definition yaml_marker : regex := Alt (Seq Bol (Lit "---")) (Lit ":").

Definition looks_like_yaml (content : string) : bool :=
  test yaml_marker (Str.trim content).

(** The object pushed for one entry of [bender.depVersions]. *)
Definition bender_dep (bender : JsVal) (entry : string * JsVal) : dep :=
  let '(name, version) := entry in
  MkDep name version
        (index_opt (get_opt bender "depPathPrefixes") name)
        (logical_or (get_opt bender "staticDomain")
               (get_opt bender "staticDomainPrefix"))
        "bender".

(** The object pushed for one entry of [data.dependencies]. *)
Definition plain_dep (source : string) (entry : string * JsVal) : dep :=
  let '(name, version) := entry in
  MkDep name version JUndefined JUndefined source.

(** [if (data.dependencies) { Object.entries(...).forEach(push) }]: the array
    afterwards, or [None] when reading the property throws. *)
Definition push_dependencies (source : string) (data : JsVal)
    (dependencies : list dep) : option (list dep) :=
  match get data "dependencies" with
  | None => None
  | Some d =>
      if truthy d then
        match entries d with
        | Some es => Some (dependencies ++ map (plain_dep source) es)
        | None => None
        end
      else Some dependencies
  end.

(** [match[1] || match[0]] *)
Definition depContent (content : string) (m : rmatch) : string :=
  match group 1 m with
  | Some g => if str_eqb g "" then whole content m else g
  | None => whole content m
  end.

(** The object pushed for one match of [dep_pair]; its groups 2 and 3 take
    part in every match. *)
Definition regex_dep (depMatch : rmatch) : dep :=
  MkDep (default "" (group 2 depMatch))
        (JStr (default "" (group 3 depMatch)))
        JUndefined JUndefined "regex".

(** Where a loop stands: it has ended, or it is still turning when the turns
    allowed to it are used up; either way with the array and the calls so
    far. *)
Inductive progress : Type :=
| Done (dependencies : list dep) (log : list event)
| Running (dependencies : list dep) (log : list event).

(** The [while] loop over the matches of one pattern, which holds
    [lastIndex], for at most [fuel] turns. *)
Fixpoint exec_loop (fuel : nat) (i : nat) (pattern : jsregex)
    (content : string) (lastIndex : nat) (dependencies : list dep)
    (log : list event) : progress :=
  match fuel with
  | 0 => Running dependencies log
  | S fuel' =>
      let '(found, lastIndex') := exec pattern content lastIndex in
      let log := log ++ [RegexExec i] in
      match found with
      | None => Done dependencies log
      | Some m =>
          let depMatches := matchAll dep_pair (depContent content m) in
          exec_loop fuel' i pattern content lastIndex'
            (dependencies ++ map regex_dep depMatches) log
      end
  end.

(** The [for] loop over [regexPatterns], from the [i]-th on. *)
Fixpoint regex_loop (fuel : nat) (i : nat) (patterns : list jsregex)
    (content : string) (dependencies : list dep) (log : list event)
    : progress :=
  match patterns with
  | [] => Done dependencies log
  | pattern :: rest =>
      match exec_loop fuel i pattern content 0 dependencies log with
      | Running dependencies' log' => Running dependencies' log'
      | Done dependencies' log' =>
          regex_loop fuel (S i) rest content dependencies' log'
      end
  end.

(** Whether one of the two patterns without the [g] flag matches. *)
Definition block_matches (content : string) : bool :=
  test (re_pat block_colon) content || test (re_pat block_equals) content.

(** A pattern no match of which holds a match of [dep_pair]. *)
Definition quiet (pat : regex) : Prop :=
  forall content pos s m,
    match_at pat pos s = Some m ->
    matchAll dep_pair (depContent content m) = [].

Definition log_of (p : progress) : list event :=
  match p with Done _ log | Running _ log => log end.

Definition array_of (p : progress) : list dep :=
  match p with Done dependencies _ | Running dependencies _ => dependencies end.

(** However many turns the loops are given, they are still turning. *)
Definition never_returns (run : nat -> progress) : Prop :=
  forall fuel, exists dependencies log, run fuel = Running dependencies log.

(** The records [push_dependencies] adds for the mapping [d]. *)
Definition records (source : string) (d : JsVal) : list dep :=
  if truthy d then map (plain_dep source) (default [] (entries d)) else [].

(** Whether the value of a script passes the test
    [result?.bender?.depVersions]. *)
Definition exposes_versions (outcome : option JsVal) : bool :=
  match outcome with
  | Some result => truthy (get_opt (get_opt result "bender") "depVersions")
  | None => false
  end.

(** The records pushed from the value of such a script. *)
Definition bender_records (outcome : option JsVal) : list dep :=
  match outcome with
  | Some result =>
      let bender := get_opt result "bender" in
      map (bender_dep bender) (default [] (entries (get_opt bender "depVersions")))
  | None => []
  end.

(** [data.dependencies] of what a parser gives; [None] when the parser or
    the read of the property throws. *)
Definition mapping_of (parsed : option JsVal) : option JsVal :=
  match parsed with
  | Some data => get data "dependencies"
  | None => None
  end.

Section Extract.

(** The state of a [vm] context; [createContext] is the one made of
    [{ exports: {}, module: { exports: {} } }].  [runInContext] gives the
    value of the script ([None] when it throws) and the context it leaves
    behind. *)
Variable Sandbox : Type.
Variable createContext : Sandbox.
Variable runInContext : string -> Sandbox -> option JsVal * Sandbox.

(** [JSON.parse] and [yaml.load]; [None] when they throw. *)
Variable JSON_parse : string -> option JsVal.
Variable yaml_load : string -> option JsVal.

(** 1. The loop over [scripts]. *)
Fixpoint run_scripts (scripts : list string) (sandbox : Sandbox)
    (dependencies : list dep) (log : list event) : flow :=
  match scripts with
  | [] => Fallthrough dependencies log
  | script :: rest =>
      let '(outcome, sandbox') := runInContext script sandbox in
      let log := log ++ [VmRun script] in
      match outcome with
      | None => run_scripts rest sandbox' dependencies log
      | Some result =>
          if truthy (get_opt (get_opt result "bender") "depVersions") then
            let bender := get_opt result "bender" in
            match entries (get_opt bender "depVersions") with
            | Some es =>
                Returned (dependencies ++ map (bender_dep bender) es) log
            | None => run_scripts rest sandbox' dependencies log
            end
          else run_scripts rest sandbox' dependencies log
      end
  end.

(** 2. [JSON.parse], then the [return] that follows the [if]. *)
Definition try_json (content : string) (dependencies : list dep)
    (log : list event) : flow :=
  let log := log ++ [JsonParse content] in
  match JSON_parse content with
  | None => Fallthrough dependencies log
  | Some data =>
      match push_dependencies "package.json" data dependencies with
      | Some dependencies' => Returned dependencies' log
      | None => Fallthrough dependencies log
      end
  end.

(** 3. [yaml.load] behind the test for a marker, then the [return]. *)
Definition try_yaml (content : string) (dependencies : list dep)
    (log : list event) : flow :=
  if looks_like_yaml content then
    let log := log ++ [YamlLoad content] in
    match yaml_load content with
    | None => Fallthrough dependencies log
    | Some data =>
        match push_dependencies "yaml" data dependencies with
        | Some dependencies' => Returned dependencies' log
        | None => Fallthrough dependencies log
        end
    end
  else Fallthrough dependencies log.

(** [extractDependencies(manifest)] on a manifest whose file reads as
    [content]: [Done] with the array returned and the calls made, or
    [Running] when a [while] loop of the last step is given [fuel] turns and
    does not end within them. *)
Definition extractDependencies (fuel : nat) (content : string) : progress :=
  match run_scripts (scripts content) createContext [] [] with
  | Returned dependencies log => Done dependencies log
  | Fallthrough dependencies log =>
      match try_json content dependencies log with
      | Returned dependencies log => Done dependencies log
      | Fallthrough dependencies log =>
          match try_yaml content dependencies log with
          | Returned dependencies log => Done dependencies log
          | Fallthrough dependencies log =>
              regex_loop fuel 0 regexPatterns content dependencies log
          end
      end
  end.

End Extract.

End Parser.

(** ** Downloading a dependency *)

Module Fetcher.

Import Regex Js Parser.

(** [s.replace(re, ...)] for a global [re]: every match, left to right, gives
    way to [by m]. *)
Fixpoint replace_all_from (fuel : nat) (r : regex) (by_ : rmatch -> string)
    (s : string) (i : nat) : string :=
  match fuel with
  | 0 => Str.drop i s
  | S fuel' =>
      match search_from r i s with
      | None => Str.drop i s
      | Some m =>
          Str.slice i (m_index m) s +:+ by_ m +:+
          (if m_end m =? m_index m
           then Str.slice (m_end m) (S (m_end m)) s +:+
                replace_all_from fuel' r by_ s (S (m_end m))
           else replace_all_from fuel' r by_ s (m_end m))
      end
  end.

Definition replace_all (r : regex) (by_ : rmatch -> string) (s : string)
    : string :=
  replace_all_from (S (String.length s)) r by_ s 0.

(** [s.replace(pat, by)] for a string [pat]: the first occurrence only. *)
Fixpoint replace_first (pat by_ : string) (s : string) : string :=
  if Str.is_prefix pat s then by_ +:+ Str.drop (String.length pat) s
  else match s with
       | EmptyString => EmptyString
       | String a s' => String a (replace_first pat by_ s')
       end.

(** [name.replace(/\//g, "_")] *)
Definition flat_name (name : string) : string :=
  replace_all (Lit "/") (fun _ => "_") name.

(** [`${dep.name.replace(/\//g, "_")}@${dep.version}.js`] *)
Definition filename (d : dep) : string :=
  flat_name (name d) +:+ "@" +:+ to_string (version d) +:+ ".js".

(** [url.replace(/([^:])\/\//g, "$1/").replace(":/", "://")] *)
Definition cleanedUrl (url : string) : string :=
  replace_first ":/" "://"
    (replace_all
       (Seq (Group 1 (Chr (fun a => negb (Chars.eqc ":" a)))) (Lit "//"))
       (fun m => default "" (group 1 m) +:+ "/") url).

(** The text handed to [new URL]. *)
Definition target (url : string) : string :=
  let cleaned := cleanedUrl url in
  if Str.is_prefix "//" cleaned then "https:" +:+ cleaned else cleaned.

(** The condition of the first [if] of [downloadDependency]. *)
Definition is_vendor (d : dep) : bool :=
  str_eqb (source d) "bender" && truthy (baseUrl d) && truthy (pathPrefix d).

Definition vendor_url (d : dep) : string :=
  to_string (baseUrl d) +:+ to_string (pathPrefix d) +:+ "/bundles/" +:+
  name d +:+ ".js".

Definition base (d : dep) : string :=
  to_string (logical_or (baseUrl d) (JStr "https://cdn.example.com")).

Definition cdnPatterns (d : dep) : list string :=
  [ base d +:+ "/" +:+ name d +:+ "@" +:+ to_string (version d) +:+ "/dist/"
      +:+ name d +:+ ".js";
    base d +:+ "/" +:+ name d +:+ "@" +:+ to_string (version d) +:+ "/"
      +:+ name d +:+ ".js";
    base d +:+ "/" +:+ to_string (logical_or (pathPrefix d) (JStr (name d)))
      +:+ "/" +:+ name d +:+ ".js" ].

Definition publicCdns (d : dep) : list string :=
  [ "https://unpkg.com/" +:+ name d +:+ "@" +:+ to_string (version d);
    "https://cdn.jsdelivr.net/npm/" +:+ name d +:+ "@"
      +:+ to_string (version d);
    "https://bundle.run/" +:+ name d +:+ "@" +:+ to_string (version d) ].

(** The array [urls]. *)
Definition urls (d : dep) : list string :=
  cdnPatterns d
  ++ map (fun url => url +:+ "/dist/" +:+ name d +:+ ".min.js") (publicCdns d)
  ++ map (fun url => url +:+ "/dist/" +:+ name d +:+ ".js") (publicCdns d)
  ++ map (fun url => url +:+ "/" +:+ name d +:+ ".js") (publicCdns d)
  ++ map (fun url => url +:+ "/bundle.js") (publicCdns d).

(** [/(function|var|const|let|=>|class)/] *)
Definition script_tokens : regex :=
  Group 1 (alts (Lit "function")
             [Lit "var"; Lit "const"; Lit "let"; Lit "=>"; Lit "class"]).

(** What a request meets.  Either no response arrives: the request emits
    [error], or its socket stays idle for the 5000 ms of [setTimeout].  Or a
    response arrives with a status and maybe a [Location]; its body either
    comes through to the end, or stops after a part of it and the socket then
    stays idle until the timeout fires. *)
Inductive body : Type :=
| Complete (data : string)
| Stalled (received : string).

Inductive response : Type :=
| NoResponse
| Response (statusCode : nat) (location : option string) (payload : body).

(** How the promise of a download stands, and how the download has ended.
    [Unhandled]: an exception or a rejection that nothing handles ends the
    process: the promise of a redirected download was rejected, the write
    stream emitted [error], or the [finish] handler threw.
    [Pending]: the requests allowed to the download are used up and it is
    still following redirects.
    [Overtaken behind]: the request was answered by a redirect, and its
    5000 ms timer, which nothing clears, fired while the download it had
    redirected to was under way.  The promise resolved with [false] at that
    moment; the redirected download went on by itself and ended as
    [behind]. *)
Inductive outcome : Type :=
| Resolved (ok : bool)
| Rejected (message : string)
| Unhandled
| Pending
| Overtaken (behind : outcome).

(** How the download itself has ended. *)
Definition behind_of (o : outcome) : outcome :=
  match o with Overtaken behind => behind | _ => o end.

Definition overtaken (o : outcome) : bool :=
  match o with Overtaken _ => true | _ => false end.

(** The promise of a request answered by a redirect, when the redirected
    download ends as [o] and the timer of the request has or has not fired
    by then. *)
Definition overtake (fires : bool) (o : outcome) : outcome :=
  if fires then Overtaken (behind_of o) else o.

(** The files on disk, by path, and the requests made so far. *)
Record world : Type := MkWorld {
  files : gmap string string;
  requests : list string
}.

Definition is_redirect (statusCode : nat) : bool :=
  existsb (Nat.eqb statusCode) [301; 302; 307; 308].

Definition has_location (location : option string) : bool :=
  match location with
  | Some l => negb (str_eqb l "")
  | None => false
  end.

(** The message of the error [https.get] throws on a URL of another
    protocol. *)
Definition protocol_error (protocol : string) : string :=
  "Protocol " +:+ Str.quoted protocol +:+ " not supported. Expected "
  +:+ Str.quoted "https:".

(** The [finish] handler of the write stream. *)
Definition on_finish (outputPath : string) (w : world) : outcome * world :=
  match Node.readFileSync (files w !! outputPath) "utf8" 0 100 with
  | Some content =>
      if test script_tokens content then (Resolved true, w)
      else (Resolved false, MkWorld (delete outputPath (files w)) (requests w))
  | None => (Unhandled, w)
  end.

(** The condition of the [if] that follows redirects. *)
Definition redirects (r : response) : option string :=
  match r with
  | Response statusCode location _ =>
      if is_redirect statusCode && has_location location then location
      else None
  | NoResponse => None
  end.

(** How the loop of [main] over the dependencies of one manifest ends: with
    the count [downloaded] and the world afterwards; or [Stopped], when a
    download is left pending, when an exception or a rejection that nothing
    handles ends the process, or when a download is overtaken by a timer:
    from there on the loop and the redirected download run at once, which is
    not followed. *)
Inductive session : Type :=
| Finished (downloaded : nat) (w : world)
| Stopped (w : world).

Section Download.

(** What the program meets around it.  [url_protocol text] is
    [new URL(text).protocol], [None] when the constructor throws.
    [network url] is what the request to [url] meets.  [timer_fires made]
    tells, for the request made last in [made] and answered by a redirect,
    whether its 5000 ms timer fires before the download it redirects to has
    ended: it does when the connection stays open and idle that long, it does
    not when the download is over sooner or the server closes the
    connection.  [opens path] tells whether [fs.createWriteStream] can open
    the path for writing. *)
Variable url_protocol : string -> option string.
Variable network : string -> response.
Variable timer_fires : list string -> bool.
Variable opens : string -> bool.

Variable path_join : string -> string -> string.

(** What [new URL] or [https.get] throws on the text of a URL, before any
    request is made. *)
Definition thrown (url : string) : option string :=
  match url_protocol (target url) with
  | None => Some "Invalid URL"
  | Some protocol =>
      if str_eqb protocol "https:" then None
      else Some (protocol_error protocol)
  end.

(** The response handler past the test for a redirect, and the two handlers
    that resolve with [false] when no response arrives.  The write stream has
    no [error] handler: when the path cannot be opened the process ends. *)
Definition settle (r : response) (outputPath : string) (w : world)
    : outcome * world :=
  match r with
  | NoResponse => (Resolved false, w)
  | Response statusCode _ payload =>
      if negb (statusCode =? 200) then (Resolved false, w)
      else if negb (opens outputPath) then (Unhandled, w)
      else
        match payload with
        | Complete data =>
            on_finish outputPath
              (MkWorld (<[outputPath := data]> (files w)) (requests w))
        | Stalled received =>
            (Resolved false,
             MkWorld (<[outputPath := received]> (files w)) (requests w))
        end
  end.

(** [tryDownload(url, outputPath)], called while nothing else is under way,
    and allowed [fuel] requests.  The world given back is the one in which
    the download has ended, also when a timer has resolved the promise
    before that ([Overtaken]).  An exception thrown where a redirect is
    followed rejects a promise that nothing handles, whatever the timers. *)
Fixpoint tryDownload (fuel : nat) (url outputPath : string) (w : world)
    : outcome * world :=
  match fuel with
  | 0 => (Pending, w)
  | S fuel' =>
      match thrown url with
      | Some message => (Rejected message, w)
      | None =>
          let w := MkWorld (files w) (requests w ++ [target url]) in
          match redirects (network (target url)) with
          | Some location =>
              match tryDownload fuel' location outputPath w with
              | (Rejected _, w') => (Unhandled, w')
              | (ended, w') => (overtake (timer_fires (requests w)) ended, w')
              end
          | None => settle (network (target url)) outputPath w
          end
      end
  end.

(** The [for] loop over [urls].  It goes on after an attempt that resolves
    with [false]; when that attempt was overtaken by a timer, the loop and
    the redirected download write to one path at once, and the model stops
    there. *)
Fixpoint try_each (fuel : nat) (urls : list string) (outputPath : string)
    (w : world) : outcome * world :=
  match urls with
  | [] => (Rejected "No valid download URL found", w)
  | url :: rest =>
      match tryDownload fuel url outputPath w with
      | (Resolved false, w') => try_each fuel rest outputPath w'
      | settled => settled
      end
  end.

Definition outputPath (outputDir : string) (d : dep) : string :=
  path_join outputDir (filename d).

(** Whether the template literals of [downloadDependency] give texts: the
    version is spliced into the file name, the base URL and the path prefix,
    when truthy, into the URLs. *)
Definition splices (d : dep) : bool :=
  converts (version d) && converts (baseUrl d) && converts (pathPrefix d).

(** [downloadDependency(dep, outputDir)] *)
Definition downloadDependency (fuel : nat) (d : dep) (outputDir : string)
    (w : world) : outcome * world :=
  if negb (splices d) then (Rejected conversion_error, w)
  else if is_vendor d
  then tryDownload fuel (vendor_url d) (outputPath outputDir d) w
  else try_each fuel (urls d) (outputPath outputDir d) w.

(** The loop of [main] over the dependencies of one manifest. *)
Fixpoint download_all (fuel : nat) (dependencies : list dep)
    (outputDir : string) (downloaded : nat) (w : world) : session :=
  match dependencies with
  | [] => Finished downloaded w
  | d :: rest =>
      match downloadDependency fuel d outputDir w with
      | (Resolved true, w') =>
          download_all fuel rest outputDir (S downloaded) w'
      | (Resolved false, w') | (Rejected _, w') =>
          download_all fuel rest outputDir downloaded w'
      | (Unhandled, w') | (Pending, w') | (Overtaken _, w') => Stopped w'
      end
  end.

End Download.

(** [url] answers with a redirect to the first of [hops], which answers with
    a redirect to the second, and so on; the last of them answers otherwise. *)
Fixpoint chain (network : string -> response) (url : string)
    (hops : list string) : Prop :=
  match hops with
  | [] => redirects (network (target url)) = None
  | next :: rest =>
      redirects (network (target url)) = Some next /\ chain network next rest
  end.

(** Whether, the requests [made] before it, the timer of one of the requests
    of a chain that are answered by a redirect (all of [urls] but the last)
    fires. *)
Fixpoint fired (timer_fires : list string -> bool) (made : list string)
    (urls : list string) : bool :=
  match urls with
  | url :: ((_ :: _) as rest) =>
      timer_fires (made ++ [target url])
      || fired timer_fires (made ++ [target url]) rest
  | _ => false
  end.

(** Whatever the timers do and whatever the number of requests allowed, the
    download makes them all and is still following redirects. *)
Definition follows_forever (network : string -> response) (url : string)
    : Prop :=
  forall timer_fires fuel,
    exists o w,
      tryDownload (fun _ => Some "https:") network timer_fires (fun _ => true)
        fuel url "out.js" (MkWorld ∅ [])
      = (o, w)
      /\ behind_of o = Pending
      /\ length (requests w) = fuel.

Definition has_slash (s : string) : bool := Str.existsb (Chars.eqc "/") s.
Definition has_at (s : string) : bool := Str.existsb (Chars.eqc "@") s.

End Fetcher.

(** ** Inputs *)

Module Cases.

Import Js Parser Fetcher.

(** A URL parser for which every text is an [https:] URL, timers that never
    fire (every download is over, or every connection closed, before they
    could), and a disk on which every path can be written. *)
Definition all_https (text : string) : option string := Some "https:".

Definition no_timer (made : list string) : bool := false.

(** Timers that fire on every request answered by a redirect: each
    connection stays open and idle, and each redirected download takes more
    than 5000 ms. *)
Definition every_timer (made : list string) : bool := true.

Definition writable (path : string) : bool := true.

(** A [vm] whose scripts all throw, as they do on a text that is no
    JavaScript, and parsers that throw on every text. *)
Definition vm_throws (script : string) (sandbox : unit)
    : option JsVal * unit := (None, sandbox).

Definition parser_throws (text : string) : option JsVal := None.

(** A parser that knows one text. *)
Definition parser_of (text : string) (data : JsVal) (t : string)
    : option JsVal :=
  if str_eqb t text then Some data else None.

(** The JSON text of an object with the one property [name], and what
    [JSON.parse] and [yaml.load] make of it. *)
Definition name_only : string :=
  "{" +:+ Str.quoted "name" +:+ ": " +:+ Str.quoted "x" +:+ "}".

Definition name_only_data : JsVal := JObj [("name", JStr "x")].

(** The JSON text of a [dependencies] mapping whose one key and value are
    empty strings, and what [JSON.parse] makes of it. *)
Definition empty_entry : string :=
  "{" +:+ Str.quoted "dependencies" +:+ ":{" +:+ Str.quoted "" +:+ ":"
  +:+ Str.quoted "" +:+ "}}".

Definition empty_entry_data : JsVal :=
  JObj [("dependencies", JObj [("", JStr "")])].

(** A text that is neither a script nor JSON nor YAML (its bracket is never
    closed), with a block for the fourth of [regexPatterns]. *)
Definition open_block : string := "[dependencies = {ab: '1'}".

Definition ab : dep := MkDep "ab" (JStr "1") JUndefined JUndefined "regex".

(** A text that is neither a script nor JSON nor YAML, with a quoted name
    and version. *)
Definition open_pair : string := "['lodash': '4.17.21'".

(** A [package.json] with one dependency, and what [JSON.parse] makes of
    it. *)
Definition left_pad_manifest : string :=
  "{" +:+ Str.quoted "dependencies" +:+ ": {" +:+ Str.quoted "left-pad"
  +:+ ": " +:+ Str.quoted "1.3.0" +:+ "}}".

Definition left_pad_data : JsVal :=
  JObj [("dependencies", JObj [("left-pad", JStr "1.3.0")])].

(** 1024 code units, then a keyword. *)
Definition padded_import : string := Str.repeat "x" 1024 +:+ "import".

(** A dependency found in a [bender] object, and a network on which its
    vendor URL is missing and every other URL serves a script. *)
Definition widget : dep :=
  MkDep "widget" (JStr "1.2.0") (JStr "/widget-1.2")
        (JStr "https://static.example.net") "bender".

Definition vendor_missing (url : string) : response :=
  if str_eqb url "https:///static.example.net/widget-1.2/bundles/widget.js"
  then Response 404 None (Complete "Not Found")
  else Response 200 None (Complete "var widget = 1").

(** A network on which every URL redirects to the same one. *)
Definition redirect_loop (url : string) : response :=
  Response 302 (Some "https://a.example/loop") (Complete "").

(** A network with three redirects in a row. *)
Definition three_hops (url : string) : response :=
  if str_eqb url "https:///a.example/0"
  then Response 301 (Some "https://a.example/1") (Complete "")
  else if str_eqb url "https:///a.example/1"
  then Response 302 (Some "https://a.example/2") (Complete "")
  else if str_eqb url "https:///a.example/2"
  then Response 307 (Some "https://a.example/3") (Complete "")
  else Response 404 None (Complete "").

(** A dependency of a [package.json], and a network on which its first
    candidate answers 200, sends the start of a script and then nothing, and
    every other URL answers 404. *)
Definition left_pad : dep :=
  MkDep "left-pad" (JStr "1.3.0") JUndefined JUndefined "package.json".

Definition first_stalls (url : string) : response :=
  if str_eqb url "https:///cdn.example.com/left-pad@1.3.0/dist/left-pad.js"
  then Response 200 None (Stalled "func")
  else Response 404 None (Complete "").

(** Two dependencies whose names differ in one character, and a network that
    serves each its own script. *)
Definition slashed : dep :=
  MkDep "a/b" (JStr "1.0.0") JUndefined JUndefined "package.json".

Definition underscored : dep :=
  MkDep "a_b" (JStr "1.0.0") JUndefined JUndefined "package.json".

Definition two_scripts (url : string) : response :=
  if str_eqb url "https:///cdn.example.com/a/b@1.0.0/dist/a/b.js"
  then Response 200 None (Complete "var slashed = 1")
  else if str_eqb url "https:///cdn.example.com/a_b@1.0.0/dist/a_b.js"
  then Response 200 None (Complete "var underscored = 2")
  else Response 404 None (Complete "").

End Cases.

(** ** What a scan goes by *)

Module Tree.

Import Regex Scanner.

Section Trace.

Variable path_join : string -> string -> string.
Variable path_relative : string -> string -> string.
Variable dir : string.

(** The candidate a file makes, if any. *)
Definition candidate (fullPath name : string) (file : option string)
    : list manifest :=
  if filenameMatch name || contentMatch file
  then [MkManifest fullPath
          (if filenameMatch name then "filename" else "content")]
  else [].

(** The candidates of the files below an entry of [currentDir], in the order
    of the listings, leaving out what lies below a directory with a skipped
    name. *)
Fixpoint found (currentDir : string) (entry : dirent) : list manifest :=
  match entry with
  | File name file => candidate (path_join currentDir name) name file
  | Dir name entries =>
      if test skipped_directory name then []
      else flat_map (found (path_join currentDir name)) entries
  end.

(** The relative paths of the entries the walk comes by, in its order. *)
Fixpoint visited (currentDir : string) (entry : dirent) : list string :=
  path_relative dir (path_join currentDir (entry_name entry))
  :: match entry with
     | File _ _ => []
     | Dir name entries =>
         if test skipped_directory name then []
         else flat_map (visited (path_join currentDir name)) entries
     end.

(** The walk on an entry whose paths are its own and new to the set. *)
Definition exact_on (currentDir : string) (e : dirent) : Prop :=
  forall st,
    NoDup (visited currentDir e) ->
    (forall p, p ∈ visited currentDir e -> p ∉ scannedFiles st) ->
    scanEntry path_join path_relative dir currentDir e st
    = MkScan (manifests st ++ found currentDir e)
             (list_to_set (visited currentDir e) ∪ scannedFiles st).

End Trace.

End Tree.

(** ** What a download leaves *)

Module Disk.

Import Regex Fetcher.

(** A response that ends an attempt before anything is written: none at all,
    or a status other than 200 that is not a redirect with a [Location]. *)
Definition refuses (r : response) : bool :=
  match r with
  | NoResponse => true
  | Response statusCode location _ =>
      negb (is_redirect statusCode && has_location location)
      && negb (statusCode =? 200)
  end.

(** No body stops half-way. *)
Definition never_stalls (network : string -> response) : Prop :=
  forall url statusCode location received,
    network url <> Response statusCode location (Stalled received).

(** The start of a body that stops half-way somewhere on the network. *)
Definition unfinished (network : string -> response) (received : string)
    : Prop :=
  exists url statusCode location,
    network url = Response statusCode location (Stalled received).

Definition succeeded (o : outcome) : bool :=
  match o with Resolved true => true | _ => false end.

(** The files a download may leave, from the files [before] it: on success
    a validated file at the output path; otherwise the same files, or the
    output path cleared, or the start of a body there. *)
Inductive left_by (network : string -> response) (outputPath : string)
    (before : gmap string string) : bool -> gmap string string -> Prop :=
| left_validated data :
    test script_tokens data = true ->
    left_by network outputPath before true (<[outputPath := data]> before)
| left_alone : left_by network outputPath before false before
| left_cleared :
    left_by network outputPath before false (delete outputPath before)
| left_unfinished received :
    unfinished network received ->
    left_by network outputPath before false
      (<[outputPath := received]> before).

(** The world a session ends in. *)
Definition world_of (s : session) : world :=
  match s with Finished _ w | Stopped w => w end.

End Disk.

(** ** Texts *)

Module Text.

Definition has_colon (s : string) : bool := Str.existsb (Chars.eqc ":") s.

(** A text, code unit by code unit. *)
Fixpoint map_chars (f : ascii -> ascii) (s : string) : string :=
  match s with
  | EmptyString => EmptyString
  | String a s' => String (f a) (map_chars f s')
  end.

(** What [replace] with a global pattern for one code unit of a class, and a
    replacement of one code unit, does to each code unit. *)
Definition swap (cls : ascii -> bool) (by_ : ascii) (a : ascii) : ascii :=
  if cls a then by_ else a.

End Text.

(** ** Unpacking a source map *)

Module Extractor.

Import Regex Fetcher.

(** [/\/\/# sourceMappingURL=([^\s]+)/] *)
Definition source_map_comment : regex :=
  Seq (Lit "//# sourceMappingURL=")
      (Group 1 (Plus (Chr (fun a => negb (Chars.is_space a))))).

(** [extractSourceMapUrl(filePath)] on a file that reads as [content]:
    [content.match(regex)], then [match[1].trim()], or [null]. *)
Definition extractSourceMapUrl (content : string) : option string :=
  match search_from source_map_comment 0 content with
  | Some m => Some (Str.trim (default "" (group 1 m)))
  | None => None
  end.

(** [s.split(sep)] for a separator of one code unit. *)
Fixpoint split (sep : ascii) (s : string) : list string :=
  match s with
  | EmptyString => [EmptyString]
  | String a s' =>
      if Chars.eqc sep a then EmptyString :: split sep s'
      else match split sep s' with
           | piece :: pieces => String a piece :: pieces
           | [] => [String a EmptyString]
           end
  end.

(** The class [[a-z0-9_.-]] under the [i] flag. *)
Definition is_plain (a : ascii) : bool :=
  Chars.is_lower a || Chars.is_upper a || Chars.is_digit a
  || Chars.eqc "_" a || Chars.eqc "." a || Chars.eqc "-" a.

(** [generateFilenameFromUrl(rawUrl)]; [pathname text] is
    [new URL(text).pathname], [None] when the constructor throws. *)
Definition generateFilenameFromUrl (pathname : string -> option string)
    (rawUrl : string) : option string :=
  match pathname (if Str.is_prefix "//" rawUrl
                  then "https:" +:+ rawUrl else rawUrl) with
  | None => None
  | Some parsed =>
      Some (replace_all (Chr (fun a => negb (is_plain a))) (fun _ => "_")
              (Js.join "_"
                 (List.filter (fun piece => negb (Js.str_eqb piece ""))
                    (split "/" parsed))))
  end.

(** [s.replace(re, ...)] for a pattern without the [g] flag: the first match
    gives way to [by_ m]. *)
Definition replace_once (r : regex) (by_ : rmatch -> string) (s : string)
    : string :=
  match search_from r 0 s with
  | None => s
  | Some m => Str.take (m_index m) s +:+ by_ m +:+ Str.drop (m_end m) s
  end.

(** [normalizePath(sourcePath)]: the four replacements in a row. *)
Definition normalizePath (sourcePath : string) : string :=
  replace_once (seqs [Bol; Opt (Lit "/"); Lit "src/"]) (fun _ => "src/")
    (replace_once
       (seqs [Bol; Opt (Lit "/");
              Group 1 (alts (Lit "node_modules")
                         [Lit "deps"; Lit "vendor"; Lit "lib"]);
              Lit "/"])
       (fun m => default "" (group 1 m) +:+ "/")
       (replace_once (seqs [Bol; Opt (Lit "/"); Lit "~"])
          (fun _ => "node_modules/")
          (replace_once
             (seqs [Bol;
                    Group 1 (alts (Lit "webpack") [Lit "bundle"; Lit "app"]);
                    Lit "://"])
             (fun _ => "") sourcePath))).

End Extractor.

(** ** Joining paths *)

Module Path.

Import Js Extractor.

(** [normalizeString(path, allowAboveRoot, "/", ...)] of Node's [path]
    module, on the segments between the separators of the path: it goes
    through them from the left and keeps a stack, here with the segment kept
    last in front.  An empty segment and [.] are passed over; [..] takes the
    segment kept last away, unless there is none or it is [..] itself, when
    it is kept if the path may climb above its root and passed over if
    not. *)
Fixpoint keep (allowAboveRoot : bool) (segments kept : list string)
    : list string :=
  match segments with
  | [] => kept
  | segment :: rest =>
      if str_eqb segment "" || str_eqb segment "."
      then keep allowAboveRoot rest kept
      else if str_eqb segment ".."
      then match kept with
           | top :: below =>
               if str_eqb top ".."
               then keep allowAboveRoot rest
                      (if allowAboveRoot then ".." :: kept else kept)
               else keep allowAboveRoot rest below
           | [] =>
               keep allowAboveRoot rest (if allowAboveRoot then [".."] else [])
           end
      else keep allowAboveRoot rest (segment :: kept)
  end.

Definition normalizeString (path : string) (allowAboveRoot : bool) : string :=
  join "/" (List.rev (keep allowAboveRoot (split "/" path) [])).

Fixpoint ends_with (a : ascii) (s : string) : bool :=
  match s with
  | EmptyString => false
  | String b EmptyString => Chars.eqc a b
  | String _ s' => ends_with a s'
  end.

(** [path.posix.normalize(path)] *)
Definition normalize (path : string) : string :=
  if str_eqb path "" then "."
  else
    let isAbsolute := Str.is_prefix "/" path in
    let trailingSeparator := ends_with "/" path in
    let normalized := normalizeString path (negb isAbsolute) in
    if str_eqb normalized ""
    then (if isAbsolute then "/" else if trailingSeparator then "./" else ".")
    else (if isAbsolute then "/" else "") +:+ normalized
         +:+ (if trailingSeparator then "/" else "").

(** [path.posix.join(a, b)]: the arguments that are not empty, with [/]
    between them, normalized. *)
Definition join (a b : string) : string :=
  if str_eqb a "" then (if str_eqb b "" then "." else normalize b)
  else if str_eqb b "" then normalize a
  else normalize (a +:+ "/" +:+ b).

(** What [join] puts in front of a name, for a directory. *)
Definition stem (dir : string) : string :=
  if str_eqb dir "" then ""
  else
    let kept := keep (negb (Str.is_prefix "/" dir)) (split "/" dir) [] in
    (if Str.is_prefix "/" dir then "/" else "")
    +:+ match kept with
        | [] => ""
        | _ => Js.join "/" (List.rev kept) +:+ "/"
        end.

End Path.

(** ** More inputs *)

Module Samples.

Import Js Parser Fetcher Scanner.

(** A network without servers, and one where only the fourth candidate of
    [left_pad] serves a script. *)
Definition all_missing (url : string) : response :=
  Response 404 None (Complete "Not Found").

Definition fourth_serves (url : string) : response :=
  if str_eqb url "https:///unpkg.com/left-pad@1.3.0/dist/left-pad.min.js"
  then Response 200 None (Complete "module.exports = function leftPad() {}")
  else Response 404 None (Complete "Not Found").

(** A URL parser that goes by the scheme a text starts with, and knows two. *)
Definition scheme_of (text : string) : option string :=
  if Str.is_prefix "https:" text then Some "https:"
  else if Str.is_prefix "http:" text then Some "http:"
  else None.

(** A tree with a skipped directory and a file that cannot be read. *)
Definition project : list dirent :=
  [ File "README.md" (Some "notes");
    Dir "src"
      [ File "package.json" (Some "{}");
        File "index.js" (Some "var x = require('y')");
        File "logo.png" None ];
    Dir "node_modules" [ File "package.json" (Some "{}") ] ].

(** The end of a bundle. *)
Definition bundle_end : string :=
  "})();" +:+ nl +:+ "//# sourceMappingURL=app.js.map" +:+ nl.

(** The path a URL parser finds in every URL. *)
Definition map_path (text : string) : option string :=
  Some "/static/js/app v2.js.map".

End Samples.

(** * Properties *)

Import Regex Scanner Parser Fetcher Cases.

(** ** The matcher *)

Lemma drop_length n s : String.length (Str.drop n s) = String.length s - n.
Proof.
  revert s; induction n as [|n IH]; intros s; simpl.
  - lia.
  - destruct s as [|a s]; simpl; [reflexivity | apply IH].
Qed.

Lemma drop_drop n m s : Str.drop m (Str.drop n s) = Str.drop (n + m) s.
Proof.
  revert s; induction n as [|n IH]; intros s; simpl; [reflexivity|].
  destruct s as [|a s]; simpl; [| apply IH].
  destruct m; reflexivity.
Qed.

Lemma is_prefix_length w s :
  Str.is_prefix w s = true -> String.length w <= String.length s.
Proof.
  revert s; induction w as [|a w IH]; intros [|b s]; simpl; try lia; try discriminate.
  intros H. apply andb_prop in H as [_ H]. apply IH in H. lia.
Qed.

Lemma run_inv {R : Type} (r : regex) :
  forall pos s c (k : nat -> string -> caps -> option R) x,
    run r pos s c k = Some x ->
    exists n c',
      min_len r <= n /\ n <= String.length s /\
      k (pos + n) (Str.drop n s) c' = Some x /\
      (forall g, ~ In g (groups r) -> capture g c' = capture g c).
Proof.
  induction r as [|cls|r1 IH1 r2 IH2|r1 IH1 r2 IH2|r1 IH1|g r1 IH1|g|];
    intros pos s c k x H; simpl in H.
  - exists 0, c. rewrite Nat.add_0_r. simpl. repeat split; auto; lia.
  - destruct s as [|a s]; [discriminate|].
    destruct (cls a); [|discriminate].
    exists 1, c. simpl. rewrite Nat.add_1_r. repeat split; auto; lia.
  - apply IH1 in H as (n1 & c1 & Hm1 & Hn1 & H & Hc1).
    apply IH2 in H as (n2 & c2 & Hm2 & Hn2 & H & Hc2).
    rewrite drop_length in Hn2.
    exists (n1 + n2), c2. simpl. repeat split.
    + lia.
    + lia.
    + rewrite drop_drop in H. rewrite Nat.add_assoc. exact H.
    + intros g Hg. rewrite Hc2, Hc1; auto; intros ?; apply Hg, in_or_app; auto.
  - destruct (run r1 pos s c k) as [y|] eqn:E.
    + inversion H; subst y. apply IH1 in E as (n & c' & ? & ? & ? & Hc).
      exists n, c'. simpl. repeat split; auto; [lia|].
      intros g Hg. apply Hc. intros ?; apply Hg, in_or_app; auto.
    + apply IH2 in H as (n & c' & ? & ? & ? & Hc).
      exists n, c'. simpl. repeat split; auto; [lia|].
      intros g Hg. apply Hc. intros ?; apply Hg, in_or_app; auto.
  - revert H. generalize (String.length s) at 1. intros fuel.
    revert pos s c. induction fuel as [|fuel IHf]; intros pos s c H.
    + exists 0, c. rewrite Nat.add_0_r. simpl. repeat split; auto; lia.
    + match type of H with
      | match ?e with _ => _ end = _ => destruct e as [y|] eqn:E
      end.
      * inversion H; subst y.
        apply IH1 in E as (n1 & c1 & _ & Hn1 & E & Hc1).
        destruct (String.length (Str.drop n1 s) <? String.length s); [|discriminate].
        apply IHf in E as (n2 & c2 & _ & Hn2 & E & Hc2).
        rewrite drop_length in Hn2.
        exists (n1 + n2), c2. simpl. repeat split.
        -- lia.
        -- lia.
        -- rewrite drop_drop in E. rewrite Nat.add_assoc. exact E.
        -- intros g Hg. rewrite Hc2, Hc1; auto.
      * exists 0, c. rewrite Nat.add_0_r. simpl. repeat split; auto; lia.
  - apply IH1 in H as (n & c' & ? & ? & H & Hc).
    exists n, ((g, Str.take (pos + n - pos) s) :: c'). simpl.
    repeat split; auto.
    intros g' Hg'.
    destruct (g' =? g) eqn:E.
    + apply Nat.eqb_eq in E. exfalso. apply Hg'. left. auto.
    + apply Hc. intros ?. apply Hg'. right. auto.
  - destruct (capture g c) as [w|].
    + destruct (Str.is_prefix w s) eqn:E; [|discriminate].
      apply is_prefix_length in E.
      exists (String.length w), c. simpl. repeat split; auto; lia.
    + exists 0, c. rewrite Nat.add_0_r. simpl. repeat split; auto; lia.
  - destruct (pos =? 0); [|discriminate].
    exists 0, c. rewrite Nat.add_0_r. simpl. repeat split; auto; lia.
Qed.

Lemma run_star_chr {R : Type} (p : ascii -> bool) :
  forall pos s c (k : nat -> string -> caps -> option R) x,
    run (Star (Chr p)) pos s c k = Some x ->
    exists n, n <= String.length s /\ Str.forallb p (Str.take n s) = true /\
              k (pos + n) (Str.drop n s) c = Some x.
Proof.
  intros pos s c k x H. simpl in H. revert H.
  generalize (String.length s) at 1. intros fuel.
  revert pos s. induction fuel as [|fuel IH]; intros pos s H.
  - exists 0. rewrite Nat.add_0_r. simpl. repeat split; auto; lia.
  - destruct s as [|a s].
    + exists 0. rewrite Nat.add_0_r. simpl. repeat split; auto.
    + destruct (p a) eqn:Ea.
      * destruct (String.length s <? String.length (String a s)) eqn:El.
        -- match type of H with
           | match ?e with _ => _ end = _ => destruct e as [y|] eqn:E
           end.
           ++ inversion H; subst y. apply IH in E as (n & Hn & Hp & E).
              exists (S n). simpl. rewrite Ea, Hp.
              replace (pos + S n) with (S pos + n) by lia.
              repeat split; auto; lia.
           ++ exists 0. rewrite Nat.add_0_r. simpl. repeat split; auto; lia.
        -- exists 0. rewrite Nat.add_0_r. simpl. repeat split; auto; lia.
      * exists 0. rewrite Nat.add_0_r. simpl. repeat split; auto; lia.
Qed.

Lemma run_group_plus {R : Type} (g : nat) (p : ascii -> bool) :
  forall pos s c (k : nat -> string -> caps -> option R) x,
    run (Group g (Plus (Chr p))) pos s c k = Some x ->
    exists n, 1 <= n /\ n <= String.length s /\
              Str.forallb p (Str.take n s) = true /\
              k (pos + n) (Str.drop n s) ((g, Str.take n s) :: c) = Some x.
Proof.
  intros pos s c k x H.
  change (run (Group g (Plus (Chr p))) pos s c k)
    with (match s with
          | String a s' =>
              if p a then
                run (Star (Chr p)) (S pos) s' c (fun pos' s' c' =>
                  k pos' s' ((g, Str.take (pos' - pos) s) :: c'))
              else None
          | EmptyString => None
          end) in H.
  destruct s as [|a s]; [discriminate|].
  destruct (p a) eqn:Ea; [|discriminate].
  apply run_star_chr in H as (n & Hn & Hp & H).
  exists (S n). simpl. rewrite Ea, Hp.
  replace (S pos + n - pos) with (S n) in H by lia.
  replace (pos + S n) with (S pos + n) by lia.
  repeat split; auto; lia.
Qed.

Lemma search_inv (r : regex) :
  forall s pos m,
    search r pos s = Some m ->
    exists j, j <= String.length s /\
              match_at r (pos + j) (Str.drop j s) = Some m.
Proof.
  induction s as [|a s IH]; intros pos m H; simpl in H.
  - destruct (match_at r pos "") eqn:E; [|discriminate].
    inversion H; subst. exists 0. rewrite Nat.add_0_r. auto.
  - destruct (match_at r pos (String a s)) eqn:E.
    + inversion H; subst. exists 0. rewrite Nat.add_0_r. simpl. split; [lia|auto].
    + apply IH in H as (j & Hj & H). exists (S j). simpl.
      replace (pos + S j) with (S pos + j) by lia. split; [lia|auto].
Qed.

Lemma search_none (r : regex) :
  forall s pos,
    (forall j, j <= String.length s ->
               match_at r (pos + j) (Str.drop j s) = None) ->
    search r pos s = None.
Proof.
  induction s as [|a s IH]; intros pos H; simpl.
  - specialize (H 0 (Nat.le_refl _)). rewrite Nat.add_0_r in H. simpl in H.
    rewrite H. reflexivity.
  - pose proof (H 0 ltac:(lia)) as H0. rewrite Nat.add_0_r in H0. simpl in H0.
    rewrite H0. apply IH. intros j Hj.
    specialize (H (S j) ltac:(simpl; lia)). simpl in H.
    replace (S pos + j) with (pos + S j) by lia. exact H.
Qed.

(** Where a match lies. *)
Lemma match_at_span (r : regex) pos s m :
  match_at r pos s = Some m ->
  m_index m = pos /\ pos + min_len r <= m_end m /\
  m_end m <= pos + String.length s.
Proof.
  unfold match_at. intros H.
  apply run_inv in H as (n & c' & ? & ? & H & _).
  inversion H; subst; simpl. lia.
Qed.

Lemma search_from_span (r : regex) i s m :
  search_from r i s = Some m ->
  i <= m_index m /\ m_index m + min_len r <= m_end m /\
  m_end m <= String.length s.
Proof.
  unfold search_from. destruct (String.length s <? i) eqn:E; [discriminate|].
  apply Nat.ltb_ge in E. intros H.
  apply search_inv in H as (j & Hj & H).
  apply match_at_span in H as (? & ? & H).
  rewrite !drop_length in *. lia.
Qed.

Lemma run_seq {R : Type} r1 r2 pos s c (k : nat -> string -> caps -> option R) :
  run (Seq r1 r2) pos s c k =
  run r1 pos s c (fun pos' s' c' => run r2 pos' s' c' k).
Proof. reflexivity. Qed.

Lemma existsb_drop p n s :
  Str.existsb p s = false -> Str.existsb p (Str.drop n s) = false.
Proof.
  revert s; induction n as [|n IH]; intros s H; simpl; [exact H|].
  destruct s as [|a s]; [reflexivity|]. simpl in H.
  apply orb_false_elim in H as [_ H]. apply IH, H.
Qed.

Lemma forallb_negb_existsb p s :
  Str.forallb (fun a => negb (p a)) s = true -> Str.existsb p s = false.
Proof.
  induction s as [|a s IH]; simpl; [reflexivity|].
  intros H. apply andb_prop in H as [Ha H].
  apply negb_true_iff in Ha. rewrite Ha, IH; auto.
Qed.

Lemma word_not_quote a : Chars.is_word a = true -> Chars.is_quote a = false.
Proof.
  destruct a as [[] [] [] [] [] [] [] []]; vm_compute; congruence.
Qed.

Lemma forallb_word_existsb_quote s :
  Str.forallb Chars.is_word s = true -> Str.existsb Chars.is_quote s = false.
Proof.
  induction s as [|a s IH]; simpl; [reflexivity|].
  intros H. apply andb_prop in H as [Ha H].
  rewrite (word_not_quote _ Ha), IH; auto.
Qed.

Lemma run_chr {R : Type} p pos s c (k : nat -> string -> caps -> option R) :
  run (Chr p) pos s c k =
  match s with
  | String a s' => if p a then k (S pos) s' c else None
  | EmptyString => None
  end.
Proof. reflexivity. Qed.

Ltac peel E Hq :=
  rewrite run_seq in E;
  let n := fresh "n" in
  apply run_inv in E as (n & ? & _ & _ & E & _);
  apply (existsb_drop _ n) in Hq.

(** A match of [dep_pair] takes a quote. *)
Lemma dep_pair_needs_quote {R : Type} pos s c
    (k : nat -> string -> caps -> option R) :
  Str.existsb Chars.is_quote s = false -> run dep_pair pos s c k = None.
Proof.
  intros Hq. destruct (run dep_pair pos s c k) as [x|] eqn:E; [exfalso|reflexivity].
  unfold dep_pair in E. cbn [seqs] in E.
  do 6 peel E Hq.
  rewrite run_seq in E. unfold quote at 1 in E. rewrite run_chr in E.
  match type of Hq with
  | Str.existsb _ ?t = false => destruct t as [|a t']
  end; [discriminate|].
  simpl in Hq. apply orb_false_elim in Hq as [Ha _].
  rewrite Ha in E. discriminate.
Qed.

Lemma matchAll_dep_pair_nil t :
  Str.existsb Chars.is_quote t = false -> matchAll dep_pair t = [].
Proof.
  intros Hq. unfold matchAll. cbn [matchAll_from].
  unfold search_from. simpl (String.length t <? 0).
  rewrite search_none; [reflexivity|].
  intros j _. unfold match_at. apply dep_pair_needs_quote, existsb_drop, Hq.
Qed.

Lemma take_nonempty n s :
  1 <= n -> n <= String.length s -> Js.str_eqb (Str.take n s) "" = false.
Proof.
  destruct n; [lia|]. destruct s; simpl; [lia|reflexivity].
Qed.

Lemma existsb_take p n s :
  Str.existsb p s = false -> Str.existsb p (Str.take n s) = false.
Proof.
  revert s; induction n as [|n IH]; intros s H; simpl; [reflexivity|].
  destruct s as [|a s]; [reflexivity|]. simpl in *.
  apply orb_false_elim in H as [Ha H]. rewrite Ha, IH; auto.
Qed.

Lemma depContent_group content m g :
  group 1 m = Some g -> Js.str_eqb g "" = false -> depContent content m = g.
Proof. unfold depContent. intros -> ->. reflexivity. Qed.

Lemma quoted_pair_quiet : quiet (re_pat quoted_pair).
Proof.
  intros content pos s m H. unfold match_at in H.
  unfold quoted_pair, re_pat in H. cbn [seqs] in H.
  rewrite run_seq in H. unfold quote at 1 in H. rewrite run_chr in H.
  destruct s as [|a s]; [discriminate|].
  destruct (Chars.is_quote a); [|discriminate].
  rewrite run_seq in H. unfold not_quote at 1 in H.
  apply run_group_plus in H as (n & Hn1 & Hn2 & Hp & H).
  apply run_inv in H as (n' & c' & _ & _ & H & Hc).
  inversion H; subst m; clear H.
  rewrite (depContent_group _ _ (Str.take n s)).
  - apply matchAll_dep_pair_nil, forallb_negb_existsb, Hp.
  - unfold group. simpl. rewrite Hc; [reflexivity|].
    vm_compute. intuition discriminate.
  - apply take_nonempty; auto.
Qed.

Lemma version_field_quiet : quiet (re_pat version_field).
Proof.
  intros content pos s m H. unfold match_at in H.
  unfold version_field, re_pat in H. cbn [seqs] in H.
  rewrite run_seq in H. unfold word at 1 in H.
  apply run_group_plus in H as (n & Hn1 & Hn2 & Hp & H).
  apply run_inv in H as (n' & c' & _ & _ & H & Hc).
  inversion H; subst m; clear H.
  rewrite (depContent_group _ _ (Str.take n s)).
  - apply matchAll_dep_pair_nil, forallb_word_existsb_quote, Hp.
  - unfold group. simpl. rewrite Hc; [reflexivity|].
    vm_compute. intuition discriminate.
  - apply take_nonempty; auto.
Qed.

Lemma search_from_quiet pat content i m :
  quiet pat -> search_from pat i content = Some m ->
  matchAll dep_pair (depContent content m) = [].
Proof.
  intros Hq. unfold search_from.
  destruct (String.length content <? i); [discriminate|].
  intros H. apply search_inv in H as (j & _ & H). eapply Hq, H.
Qed.

(** The loop over the matches of a global pattern that is quiet and matches
    no empty text ends, and leaves the array as it found it. *)
Lemma exec_loop_quiet pattern content i :
  re_global pattern = true ->
  quiet (re_pat pattern) -> 1 <= min_len (re_pat pattern) ->
  forall fuel lastIndex dependencies log,
    S (String.length content) - lastIndex < fuel ->
    exists log',
      exec_loop fuel i pattern content lastIndex dependencies log
      = Done dependencies log'.
Proof.
  intros Hg Hq Hmin.
  induction fuel as [|fuel IH]; intros lastIndex deps log Hf; [lia|].
  cbn [exec_loop]. unfold exec. rewrite Hg.
  destruct (search_from (re_pat pattern) lastIndex content) as [m|] eqn:E.
  - rewrite (search_from_quiet _ _ _ _ Hq E). simpl map. rewrite app_nil_r.
    apply search_from_span in E. apply IH. lia.
  - eauto.
Qed.

(** Whether it ends or not, it leaves the array as it found it. *)
Lemma exec_loop_quiet_same pattern content i :
  re_global pattern = true -> quiet (re_pat pattern) ->
  forall fuel lastIndex dependencies log,
    match exec_loop fuel i pattern content lastIndex dependencies log with
    | Done dependencies' _ | Running dependencies' _ =>
        dependencies' = dependencies
    end.
Proof.
  intros Hg Hq. induction fuel as [|fuel IH]; intros lastIndex deps log.
  - reflexivity.
  - cbn [exec_loop]. unfold exec. rewrite Hg.
    destruct (search_from (re_pat pattern) lastIndex content) as [m|] eqn:E.
    + rewrite (search_from_quiet _ _ _ _ Hq E). simpl map. rewrite app_nil_r.
      apply IH.
    + reflexivity.
Qed.

(** The loop over a pattern without the [g] flag: one turn when the pattern
    does not match, and no end when it does. *)
Lemma exec_loop_block_none pattern content i fuel lastIndex dependencies log :
  re_global pattern = false ->
  test (re_pat pattern) content = false ->
  exec_loop (S fuel) i pattern content lastIndex dependencies log
  = Done dependencies (log ++ [RegexExec i]).
Proof.
  unfold test. intros Hg H. cbn [exec_loop]. unfold exec. rewrite Hg.
  destruct (search_from (re_pat pattern) 0 content); [discriminate|reflexivity].
Qed.

Lemma exec_loop_block_some pattern content i :
  re_global pattern = false ->
  test (re_pat pattern) content = true ->
  forall fuel lastIndex dependencies log,
    exists dependencies' log',
      exec_loop fuel i pattern content lastIndex dependencies log
      = Running dependencies' log'.
Proof.
  unfold test. intros Hg H.
  induction fuel as [|fuel IH]; intros lastIndex deps log.
  - simpl. eauto.
  - cbn [exec_loop]. unfold exec. rewrite Hg.
    destruct (search_from (re_pat pattern) 0 content); [|discriminate]. apply IH.
Qed.

Lemma min_len_quoted_pair : 1 <= min_len (re_pat quoted_pair).
Proof. vm_compute. lia. Qed.

Lemma min_len_version_field : 1 <= min_len (re_pat version_field).
Proof. vm_compute. lia. Qed.

Lemma regex_loop_returns content fuel dependencies log :
  block_matches content = false ->
  String.length content + 2 <= fuel ->
  exists log',
    regex_loop fuel 0 regexPatterns content dependencies log
    = Done dependencies log'.
Proof.
  unfold block_matches. intros Hb Hf. apply orb_false_elim in Hb as [Hc He].
  unfold regexPatterns. cbn [regex_loop].
  destruct (exec_loop_quiet quoted_pair content 0 eq_refl quoted_pair_quiet
              min_len_quoted_pair fuel 0 dependencies log ltac:(lia))
    as [log1 ->].
  destruct (exec_loop_quiet version_field content 1 eq_refl version_field_quiet
              min_len_version_field fuel 0 dependencies log1 ltac:(lia))
    as [log2 ->].
  destruct fuel as [|fuel]; [lia|].
  rewrite (exec_loop_block_none block_colon) by (reflexivity || exact Hc).
  rewrite (exec_loop_block_none block_equals) by (reflexivity || exact He).
  eauto.
Qed.

Lemma regex_loop_never_returns content :
  block_matches content = true ->
  forall fuel dependencies log,
    exists dependencies' log',
      regex_loop fuel 0 regexPatterns content dependencies log
      = Running dependencies' log'.
Proof.
  unfold block_matches. intros Hb fuel deps log.
  unfold regexPatterns. cbn [regex_loop].
  destruct (exec_loop fuel 0 quoted_pair content 0 deps log) as [d1 l1|d1 l1];
    [|eauto].
  destruct (exec_loop fuel 1 version_field content 0 d1 l1) as [d2 l2|d2 l2];
    [|eauto].
  destruct (test (re_pat block_colon) content) eqn:Hc.
  - destruct (exec_loop_block_some block_colon content 2 eq_refl Hc fuel 0 d2 l2)
      as (d3 & l3 & ->). eauto.
  - simpl in Hb.
    destruct (exec_loop fuel 2 block_colon content 0 d2 l2) as [d3 l3|d3 l3];
      [|eauto].
    destruct (exec_loop_block_some block_equals content 3 eq_refl Hb fuel 0 d3 l3)
      as (d4 & l4 & ->). eauto.
Qed.

Lemma regex_loop_same content fuel dependencies log dependencies' log' :
  regex_loop fuel 0 regexPatterns content dependencies log
  = Done dependencies' log' ->
  dependencies' = dependencies /\ block_matches content = false.
Proof.
  intros H. destruct (block_matches content) eqn:Hb.
  - destruct (regex_loop_never_returns content Hb fuel dependencies log)
      as (? & ? & E). congruence.
  - split; [|reflexivity].
    revert H. unfold regexPatterns. cbn [regex_loop].
    pose proof (exec_loop_quiet_same quoted_pair content 0 eq_refl
                  quoted_pair_quiet fuel 0 dependencies log) as H1.
    destruct (exec_loop fuel 0 quoted_pair content 0 dependencies log)
      as [d1 l1|d1 l1]; [subst d1|discriminate].
    pose proof (exec_loop_quiet_same version_field content 1 eq_refl
                  version_field_quiet fuel 0 dependencies l1) as H2.
    destruct (exec_loop fuel 1 version_field content 0 dependencies l1)
      as [d2 l2|d2 l2]; [subst d2|discriminate].
    apply orb_false_elim in Hb as [Hc He].
    destruct fuel as [|fuel]; [discriminate|].
    rewrite (exec_loop_block_none block_colon) by (reflexivity || exact Hc).
    rewrite (exec_loop_block_none block_equals) by (reflexivity || exact He).
    intros H. inversion H. reflexivity.
Qed.

(** ** The strategies of [extractDependencies] *)

Lemma truthy_entries v :
  Js.truthy v = true -> exists es, Js.entries v = Some es.
Proof. destruct v; simpl; try discriminate; eauto. Qed.

Lemma push_dependencies_spec source data dependencies :
  push_dependencies source data dependencies =
  match Js.get data "dependencies" with
  | Some d => Some (dependencies ++ records source d)
  | None => None
  end.
Proof.
  unfold push_dependencies, records.
  destruct (Js.get data "dependencies") as [d|]; [|reflexivity].
  destruct (Js.truthy d) eqn:Ht.
  - destruct (truthy_entries d Ht) as [es ->]. reflexivity.
  - rewrite app_nil_r. reflexivity.
Qed.

Lemma exec_loop_log fuel i pattern content :
  forall lastIndex dependencies log,
    exists more,
      log_of (exec_loop fuel i pattern content lastIndex dependencies log)
      = log ++ more.
Proof.
  induction fuel as [|fuel IH]; intros lastIndex deps log; cbn [exec_loop].
  - exists []. simpl. rewrite app_nil_r. reflexivity.
  - destruct (exec pattern content lastIndex) as [[m|] lastIndex'].
    + destruct (IH lastIndex' (deps ++ map regex_dep
                  (matchAll dep_pair (depContent content m)))
                  (log ++ [RegexExec i])) as [more ->].
      exists (RegexExec i :: more). rewrite <- app_assoc. reflexivity.
    + exists [RegexExec i]. reflexivity.
Qed.

Lemma regex_loop_log fuel content patterns :
  forall i dependencies log,
    exists more,
      log_of (regex_loop fuel i patterns content dependencies log)
      = log ++ more.
Proof.
  induction patterns as [|pattern rest IH]; intros i deps log; cbn [regex_loop].
  - exists []. simpl. rewrite app_nil_r. reflexivity.
  - destruct (exec_loop_log fuel i pattern content 0 deps log) as [more1 H1].
    destruct (exec_loop fuel i pattern content 0 deps log) as [d1 l1|d1 l1];
      simpl in H1; subst l1.
    + destruct (IH (S i) d1 (log ++ more1)) as [more2 ->].
      exists (more1 ++ more2). rewrite app_assoc. reflexivity.
    + exists more1. reflexivity.
Qed.

Section Strategies.

Variable Sandbox : Type.
Variable createContext : Sandbox.
Variable runInContext : string -> Sandbox -> option Js.JsVal * Sandbox.
Variable JSON_parse : string -> option Js.JsVal.
Variable yaml_load : string -> option Js.JsVal.

Local Abbreviation extract :=
  (extractDependencies Sandbox createContext runInContext JSON_parse
     yaml_load).

Lemma run_scripts_spec content :
  let first := runInContext (script_namespace content) createContext in
  let second := runInContext (script_exports content) (snd first) in
  run_scripts Sandbox runInContext (scripts content) createContext [] [] =
  if exposes_versions (fst first)
  then Returned (bender_records (fst first))
         [VmRun (script_namespace content)]
  else if exposes_versions (fst second)
  then Returned (bender_records (fst second))
         [VmRun (script_namespace content); VmRun (script_exports content)]
  else Fallthrough []
         [VmRun (script_namespace content); VmRun (script_exports content)].
Proof.
  intros first second. subst first second.
  unfold scripts. cbn [run_scripts].
  destruct (runInContext (script_namespace content) createContext)
    as [[r1|] sb1]; cbn [fst snd exposes_versions bender_records].
  - destruct (Js.truthy (Js.get_opt (Js.get_opt r1 "bender") "depVersions"))
      eqn:H1.
    + destruct (truthy_entries _ H1) as [es ->]. reflexivity.
    + destruct (runInContext (script_exports content) sb1) as [[r2|] sb2];
        cbn [fst snd exposes_versions bender_records]; [|reflexivity].
      destruct (Js.truthy (Js.get_opt (Js.get_opt r2 "bender") "depVersions"))
        eqn:H2; [|reflexivity].
      destruct (truthy_entries _ H2) as [es ->]. reflexivity.
  - destruct (runInContext (script_exports content) sb1) as [[r2|] sb2];
      cbn [fst snd exposes_versions bender_records]; [|reflexivity].
    destruct (Js.truthy (Js.get_opt (Js.get_opt r2 "bender") "depVersions"))
      eqn:H2; [|reflexivity].
    destruct (truthy_entries _ H2) as [es ->]. reflexivity.
Qed.

Lemma try_json_spec content dependencies log :
  try_json JSON_parse content dependencies log =
  match mapping_of (JSON_parse content) with
  | Some d =>
      Returned (dependencies ++ records "package.json" d)
               (log ++ [JsonParse content])
  | None => Fallthrough dependencies (log ++ [JsonParse content])
  end.
Proof.
  unfold try_json, mapping_of.
  destruct (JSON_parse content) as [data|]; [|reflexivity].
  rewrite push_dependencies_spec.
  destruct (Js.get data "dependencies"); reflexivity.
Qed.

Lemma try_yaml_spec content dependencies log :
  try_yaml yaml_load content dependencies log =
  if looks_like_yaml content then
    match mapping_of (yaml_load content) with
    | Some d =>
        Returned (dependencies ++ records "yaml" d)
                 (log ++ [YamlLoad content])
    | None => Fallthrough dependencies (log ++ [YamlLoad content])
    end
  else Fallthrough dependencies log.
Proof.
  unfold try_yaml, mapping_of.
  destruct (looks_like_yaml content); [|reflexivity].
  destruct (yaml_load content) as [data|]; [|reflexivity].
  rewrite push_dependencies_spec.
  destruct (Js.get data "dependencies"); reflexivity.
Qed.

(** C1 (amended): the strategies are tried in the order embedded-eval,
    structured-json, structured-yaml (when the text has a YAML marker),
    textual-regex, and a strategy that throws gives way to the next.  The
    function returns at the first strategy that parses its input, with the
    records of that strategy even when there are none: at the first script
    whose value has a truthy [bender.depVersions]; else when [JSON.parse]
    gives a value whose [dependencies] can be read; else when [yaml.load]
    does; only otherwise does it run the textual-regex loops. *)
Theorem extract_returns_at_first_parse fuel content :
  let first := runInContext (script_namespace content) createContext in
  let second := runInContext (script_exports content) (snd first) in
  let vm_log :=
    [VmRun (script_namespace content); VmRun (script_exports content)] in
  (exposes_versions (fst first) = true ->
   extract fuel content =
   Done (bender_records (fst first)) [VmRun (script_namespace content)])
  /\ (exposes_versions (fst first) = false ->
      exposes_versions (fst second) = true ->
      extract fuel content = Done (bender_records (fst second)) vm_log)
  /\ (exposes_versions (fst first) = false ->
      exposes_versions (fst second) = false ->
      (forall d,
          mapping_of (JSON_parse content) = Some d ->
          extract fuel content =
          Done (records "package.json" d) (vm_log ++ [JsonParse content]))
      /\ (mapping_of (JSON_parse content) = None ->
          (looks_like_yaml content = true ->
           (forall d,
               mapping_of (yaml_load content) = Some d ->
               extract fuel content =
               Done (records "yaml" d)
                    (vm_log ++ [JsonParse content; YamlLoad content]))
           /\ (mapping_of (yaml_load content) = None ->
               extract fuel content =
               regex_loop fuel 0 regexPatterns content []
                 (vm_log ++ [JsonParse content; YamlLoad content])))
          /\ (looks_like_yaml content = false ->
              extract fuel content =
              regex_loop fuel 0 regexPatterns content []
                (vm_log ++ [JsonParse content])))).
Proof.
  intros first second vm_log. subst first second vm_log.
  unfold extractDependencies. rewrite run_scripts_spec.
  split; [intros ->; reflexivity|].
  split; [intros -> ->; reflexivity|].
  intros -> ->. rewrite try_json_spec. split.
  - intros d ->. reflexivity.
  - intros ->. rewrite try_yaml_spec. split.
    + intros ->. split.
      * intros d ->. reflexivity.
      * intros ->. reflexivity.
    + intros ->. reflexivity.
Qed.


Lemma extract_log_head fuel content :
  exists rest,
    log_of (extract fuel content) = VmRun (script_namespace content) :: rest.
Proof.
  unfold extractDependencies. rewrite run_scripts_spec. cbv zeta.
  destruct (exposes_versions _); [simpl; eauto|].
  destruct (exposes_versions _); [simpl; eauto|].
  rewrite try_json_spec.
  destruct (mapping_of (JSON_parse content)); [simpl; eauto|].
  rewrite try_yaml_spec.
  destruct (looks_like_yaml content).
  - destruct (mapping_of (yaml_load content)); [simpl; eauto|].
    match goal with
    | |- context [regex_loop ?f ?i ?ps ?c ?d ?l] =>
        destruct (regex_loop_log f c ps i d l) as [more ->]
    end.
    simpl. eauto.
  - match goal with
    | |- context [regex_loop ?f ?i ?ps ?c ?d ?l] =>
        destruct (regex_loop_log f c ps i d l) as [more ->]
    end.
    simpl. eauto.
Qed.

(** C4 (amended): the embedded-object strategy splices the text of the
    manifest into the body of a function and hands that script to
    [vm.runInContext]: whatever the text, the first call the function makes
    runs it as code in a [vm] context. *)
Theorem embedded_strategy_runs_the_text fuel content :
  exists before after rest,
    log_of (extract fuel content) = VmRun (before +:+ content +:+ after) :: rest
    /\ before +:+ content +:+ after = script_namespace content.
Proof.
  destruct (extract_log_head fuel content) as [rest H].
  exists ("(function() { " +:+ nl +:+
          "                var __WEBPACK_NAMESPACE_OBJECT__; " +:+ nl +:+
          "                "),
         (";" +:+ nl +:+
          "                return __WEBPACK_NAMESPACE_OBJECT__; " +:+ nl +:+
          "            })()"),
         rest.
  split; [|reflexivity]. exact H.
Qed.

Lemma in_records source d r :
  In r (records source d) ->
  exists es,
    Js.entries d = Some es /\ In (name r, version r) es /\ source = Parser.source r.
Proof.
  unfold records. destruct (Js.truthy d) eqn:Ht; [|intros []].
  destruct (truthy_entries d Ht) as [es ->]. simpl.
  intros H. apply in_map_iff in H as ([k v] & <- & H).
  exists es. simpl. auto.
Qed.

Lemma in_bender_records result r :
  In r (bender_records (Some result)) ->
  exists es,
    Js.entries (Js.get_opt (Js.get_opt result "bender") "depVersions") = Some es
    /\ In (name r, version r) es /\ Parser.source r = "bender".
Proof.
  unfold bender_records.
  destruct (Js.entries (Js.get_opt (Js.get_opt result "bender") "depVersions"))
    as [es|]; [|intros []].
  simpl. intros H. apply in_map_iff in H as ([k v] & <- & H).
  exists es. simpl. auto.
Qed.

(** C5 (amended): every record parse returns has as name a key, and as
    version the value under that key, of the version map its strategy read
    ([bender.depVersions] of a script's value, or the [dependencies] of the
    JSON or YAML document), as they stand: nothing checks that either is
    non-empty. *)
Theorem records_come_from_entries fuel content dependencies log r :
  extract fuel content = Done dependencies log ->
  In r dependencies ->
  exists m es,
    Js.entries m = Some es /\ In (name r, version r) es /\
    ((source r = "bender" /\
      exists script sandbox result,
        In script (scripts content) /\
        fst (runInContext script sandbox) = Some result /\
        m = Js.get_opt (Js.get_opt result "bender") "depVersions")
     \/ (source r = "package.json" /\ mapping_of (JSON_parse content) = Some m)
     \/ (source r = "yaml" /\ mapping_of (yaml_load content) = Some m)).
Proof.
  unfold extractDependencies. rewrite run_scripts_spec. cbv zeta.
  set (first := runInContext (script_namespace content) createContext).
  set (second := runInContext (script_exports content) (snd first)).
  destruct (exposes_versions (fst first)) eqn:E1.
  { intros H Hr. inversion H; subst; clear H.
    destruct (fst first) as [result|] eqn:Er; [|destruct Hr].
    apply in_bender_records in Hr as (es & He & Hin & Hs).
    eexists _, es. split; [exact He|]. split; [exact Hin|]. left.
    split; [exact Hs|]. eexists _, _, result. split; [left; reflexivity|].
    split; [exact Er|reflexivity]. }
  destruct (exposes_versions (fst second)) eqn:E2.
  { intros H Hr. inversion H; subst; clear H.
    destruct (fst second) as [result|] eqn:Er; [|destruct Hr].
    apply in_bender_records in Hr as (es & He & Hin & Hs).
    eexists _, es. split; [exact He|]. split; [exact Hin|]. left.
    split; [exact Hs|]. eexists _, _, result.
    split; [right; left; reflexivity|].
    split; [exact Er|reflexivity]. }
  rewrite try_json_spec.
  destruct (mapping_of (JSON_parse content)) as [d|] eqn:Ej.
  { intros H Hr. inversion H; subst; clear H. simpl in Hr.
    apply in_records in Hr as (es & He & Hin & Hs).
    exists d, es. split; [exact He|]. split; [exact Hin|]. right; left. auto. }
  rewrite try_yaml_spec.
  destruct (looks_like_yaml content).
  - destruct (mapping_of (yaml_load content)) as [d|] eqn:Ey.
    + intros H Hr. inversion H; subst; clear H. simpl in Hr.
      apply in_records in Hr as (es & He & Hin & Hs).
      exists d, es. split; [exact He|]. split; [exact Hin|]. right; right. auto.
    + intros H Hr. apply regex_loop_same in H as [-> _]. destruct Hr.
  - intros H Hr. apply regex_loop_same in H as [-> _]. destruct Hr.
Qed.

(** A text that no earlier strategy parses is handed to the loops over
    [regexPatterns], with an empty array. *)
Lemma extract_falls_to_regex fuel content :
  let first := runInContext (script_namespace content) createContext in
  let second := runInContext (script_exports content) (snd first) in
  exposes_versions (fst first) = false ->
  exposes_versions (fst second) = false ->
  mapping_of (JSON_parse content) = None ->
  (looks_like_yaml content = true -> mapping_of (yaml_load content) = None) ->
  extract fuel content
  = regex_loop fuel 0 regexPatterns content []
      ([VmRun (script_namespace content); VmRun (script_exports content)]
       ++ [JsonParse content]
       ++ (if looks_like_yaml content then [YamlLoad content] else [])).
Proof.
  intros first second H1 H2 Hj Hy. subst first second.
  unfold extractDependencies. rewrite run_scripts_spec. cbv zeta.
  rewrite H1, H2, try_json_spec, Hj, try_yaml_spec.
  destruct (looks_like_yaml content).
  - rewrite Hy by reflexivity. rewrite <- app_assoc. reflexivity.
  - rewrite app_nil_r. reflexivity.
Qed.

(** X19: on a manifest that comes down to the textual-regex fallback and
    whose text matches neither block pattern ([dependencies] or
    [depVersions], then [:] or [=], then braces around at least one
    character), the function returns, and the list it returns is empty: the
    two patterns for a quoted pair hand on their first group, a text without
    quotes, in which the pattern for a name and a version finds nothing. *)
Theorem regex_fallback_adds_no_record fuel content :
  let first := runInContext (script_namespace content) createContext in
  let second := runInContext (script_exports content) (snd first) in
  exposes_versions (fst first) = false ->
  exposes_versions (fst second) = false ->
  mapping_of (JSON_parse content) = None ->
  (looks_like_yaml content = true -> mapping_of (yaml_load content) = None) ->
  block_matches content = false ->
  String.length content + 2 <= fuel ->
  exists dependencies log,
    extract fuel content = Done dependencies log
    /\ NoDup (map name dependencies)
    /\ dependencies = [].
Proof.
  intros first second H1 H2 Hj Hy Hb Hf. subst first second.
  unfold extractDependencies. rewrite run_scripts_spec. cbv zeta.
  rewrite H1, H2, try_json_spec, Hj, try_yaml_spec.
  assert (Hr : exists log,
             regex_loop fuel 0 regexPatterns content []
               ([VmRun (script_namespace content);
                 VmRun (script_exports content)] ++ [JsonParse content]
                ++ (if looks_like_yaml content then [YamlLoad content] else []))
             = Done [] log)
    by (apply regex_loop_returns; assumption).
  destruct Hr as [log Hr]. exists [], log.
  split; [|split; [constructor|reflexivity]].
  destruct (looks_like_yaml content).
  - rewrite Hy by reflexivity. rewrite <- Hr, <- app_assoc. reflexivity.
  - rewrite <- Hr, app_nil_r. reflexivity.
Qed.

End Strategies.

(** C1 (counterexample): the text is a JSON object without [dependencies].
    [JSON.parse] succeeds, no record comes of it, and the function returns
    there: the text has a YAML marker, yet neither [yaml.load] nor any pattern
    of the textual-regex step is tried. *)
Lemma json_without_dependencies_ends_parse :
  extractDependencies unit tt vm_throws (parser_of name_only name_only_data)
    (parser_of name_only name_only_data) 5 name_only
  = Done [] [VmRun (script_namespace name_only);
             VmRun (script_exports name_only); JsonParse name_only]
  /\ looks_like_yaml name_only = true.
Proof. vm_compute. split; reflexivity. Qed.

Lemma extract_returns_at_first_parse_witness :
  extractDependencies unit tt vm_throws (parser_of name_only name_only_data)
    parser_throws 5 name_only
  = Done (records "package.json" Js.JUndefined)
      ([VmRun (script_namespace name_only); VmRun (script_exports name_only)]
       ++ [JsonParse name_only]).
Proof.
  pose proof (extract_returns_at_first_parse unit tt vm_throws
                (parser_of name_only name_only_data) parser_throws 5 name_only)
    as H.
  cbv zeta in H. destruct H as (_ & _ & H).
  destruct (H eq_refl eq_refl) as [Hjson _].
  apply Hjson. vm_compute. reflexivity.
Defined.

(** C4 (counterexample): the first thing the function does with a manifest
    that reads [process.exit(1)] is to run a script with that text in it. *)
Lemma embedded_strategy_executes_manifest :
  head (log_of (extractDependencies unit tt vm_throws parser_throws
                  parser_throws 5 "process.exit(1)"))
  = Some (VmRun ("(function() { " +:+ nl +:+
                 "                var __WEBPACK_NAMESPACE_OBJECT__; " +:+ nl +:+
                 "                process.exit(1);" +:+ nl +:+
                 "                return __WEBPACK_NAMESPACE_OBJECT__; " +:+ nl +:+
                 "            })()")).
Proof. vm_compute. reflexivity. Qed.

(** C5 (counterexample): a [dependencies] mapping whose one key and value are
    empty strings gives a record with an empty name and an empty version. *)
Lemma empty_name_and_version_pass :
  array_of (extractDependencies unit tt vm_throws
              (parser_of empty_entry empty_entry_data) parser_throws 5
              empty_entry)
  = [MkDep "" (Js.JStr "") Js.JUndefined Js.JUndefined "package.json"].
Proof. vm_compute. reflexivity. Qed.

Lemma records_come_from_entries_witness :
  exists m es,
    Js.entries m = Some es /\ In (name left_pad, version left_pad) es /\
    ((source left_pad = "bender" /\
      exists script sandbox result,
        In script (scripts left_pad_manifest) /\
        fst (vm_throws script sandbox) = Some result /\
        m = Js.get_opt (Js.get_opt result "bender") "depVersions")
     \/ (source left_pad = "package.json" /\
         mapping_of (parser_of left_pad_manifest left_pad_data
                       left_pad_manifest) = Some m)
     \/ (source left_pad = "yaml" /\
         mapping_of (parser_throws left_pad_manifest) = Some m)).
Proof.
  apply (records_come_from_entries unit tt vm_throws
           (parser_of left_pad_manifest left_pad_data) parser_throws 5
           left_pad_manifest [left_pad]
           (log_of (extractDependencies unit tt vm_throws
                      (parser_of left_pad_manifest left_pad_data)
                      parser_throws 5 left_pad_manifest))
           left_pad).
  - vm_compute. reflexivity.
  - left. reflexivity.
Defined.

Lemma open_block_falls_to_regex fuel :
  extractDependencies unit tt vm_throws parser_throws parser_throws fuel
    open_block
  = regex_loop fuel 0 regexPatterns open_block []
      [VmRun (script_namespace open_block); VmRun (script_exports open_block);
       JsonParse open_block; YamlLoad open_block].
Proof.
  unfold extractDependencies. rewrite run_scripts_spec. cbv zeta.
  cbn [vm_throws fst snd exposes_versions].
  rewrite try_json_spec. cbn [parser_throws mapping_of].
  rewrite try_yaml_spec.
  replace (looks_like_yaml open_block) with true by (vm_compute; reflexivity).
  reflexivity.
Qed.

(** C7: the textual-regex step is written to go through the matches of each
    of its patterns and to return the records found.  The text here is
    handled by that step and holds a block for the fourth pattern, one of the
    two written without the [g] flag: [exec] starts from the beginning at
    every turn of the [while] loop and finds the same match again, and no
    list is ever returned.  Where the step does return a list, as it does
    for a text without such a block, no two records of it share a name. *)
Theorem fallback_never_returns_on_block :
  block_matches open_block = true
  /\ never_returns (fun fuel =>
                      extractDependencies unit tt vm_throws parser_throws
                        parser_throws fuel open_block)
  /\ (exists dependencies log,
        extractDependencies unit tt vm_throws parser_throws parser_throws 30
          open_pair
        = Done dependencies log)
  /\ forall (Sandbox : Type) (createContext : Sandbox)
        (runInContext : string -> Sandbox -> option Js.JsVal * Sandbox)
        (JSON_parse yaml_load : string -> option Js.JsVal)
        fuel content dependencies log,
        let first := runInContext (script_namespace content) createContext in
        let second := runInContext (script_exports content) (snd first) in
        exposes_versions (fst first) = false ->
        exposes_versions (fst second) = false ->
        mapping_of (JSON_parse content) = None ->
        (looks_like_yaml content = true ->
         mapping_of (yaml_load content) = None) ->
        extractDependencies Sandbox createContext runInContext JSON_parse
          yaml_load fuel content
        = Done dependencies log ->
        NoDup (map name dependencies).
Proof.
  split; [vm_compute; reflexivity|]. split; [|split].
  - intros fuel. cbv beta. rewrite open_block_falls_to_regex.
    apply regex_loop_never_returns. vm_compute. reflexivity.
  - eexists _, _. vm_compute. reflexivity.
  - intros Sandbox createContext runInContext JSON_parse yaml_load fuel
      content dependencies log first second H1 H2 Hj Hy H.
    rewrite (extract_falls_to_regex Sandbox createContext runInContext
               JSON_parse yaml_load fuel content H1 H2 Hj Hy) in H.
    apply regex_loop_same in H as [-> _]. constructor.
Qed.

Lemma regex_fallback_adds_no_record_witness :
  exists dependencies log,
    extractDependencies unit tt vm_throws parser_throws parser_throws 30
      open_pair = Done dependencies log
    /\ NoDup (map name dependencies)
    /\ dependencies = [].
Proof.
  apply (regex_fallback_adds_no_record unit tt vm_throws parser_throws
           parser_throws 30 open_pair).
  - reflexivity.
  - reflexivity.
  - reflexivity.
  - intros _. reflexivity.
  - vm_compute. reflexivity.
  - vm_compute. lia.
Defined.

(** ** Downloads *)

Lemma settle_not_rejected opens r outputPath w message w' :
  settle opens r outputPath w <> (Rejected message, w').
Proof.
  unfold settle, on_finish, Node.readFileSync.
  destruct r as [|statusCode location [data|received]]; try discriminate;
    destruct (negb (statusCode =? 200)); try discriminate;
    destruct (negb (opens outputPath)); try discriminate.
  match goal with
  | |- context [match ?o with Some _ => _ | None => _ end] => destruct o
  end; [|discriminate].
  destruct (test script_tokens _); discriminate.
Qed.

(** A failed attempt whose response does not stop half-way leaves the files
    as they were, or leaves no file at the output path. *)
Lemma settle_failure_cleans opens r outputPath w w' :
  settle opens r outputPath w = (Resolved false, w') ->
  (forall statusCode location received,
      r <> Response statusCode location (Stalled received)) ->
  files w' = files w \/ files w' !! outputPath = None.
Proof.
  unfold settle, on_finish, Node.readFileSync.
  destruct r as [|statusCode location [data|received]].
  - intros H _. inversion H. auto.
  - destruct (negb (statusCode =? 200)).
    + intros H _. inversion H. auto.
    + destruct (negb (opens outputPath)); [discriminate|].
      cbn [files requests]. rewrite lookup_insert_eq.
      destruct (test script_tokens data); [discriminate|].
      intros H _. inversion H. cbn [files]. right. apply lookup_delete_eq.
  - intros _ H. exfalso. eapply H. reflexivity.
Qed.

Lemma last_cons {A : Type} (a d : A) (l : list A) :
  List.last (a :: l) d = List.last l a.
Proof.
  revert a d. induction l as [|b l IH]; intros a d; [reflexivity|].
  change (List.last (a :: b :: l) d) with (List.last (b :: l) d).
  rewrite !IH. reflexivity.
Qed.

Lemma behind_of_overtake fires o : behind_of (overtake fires o) = behind_of o.
Proof. destruct fires; [|reflexivity]. destruct o; reflexivity. Qed.

Lemma overtake_overtake a b o :
  overtake a (overtake b o) = overtake (a || b) o.
Proof.
  destruct a; [|reflexivity]. cbn [orb]. unfold overtake at 1 3.
  rewrite behind_of_overtake. reflexivity.
Qed.

Lemma overtake_not_rejected fires o message :
  overtake fires o = Rejected message -> o = Rejected message.
Proof. destruct fires; [discriminate|]. exact id. Qed.

Lemma thrown_https url_protocol url :
  url_protocol (target url) = Some "https:" -> thrown url_protocol url = None.
Proof. unfold thrown. intros ->. reflexivity. Qed.

Section Redirects.

Variable url_protocol : string -> option string.
Variable network : string -> response.
Variable timer_fires : list string -> bool.
Variable opens : string -> bool.

(** C3 (amended): following redirects has no budget.  Whatever the length
    of a chain of redirects, [tryDownload] requests every URL of it in turn,
    and the download ends as the response of the last one makes it.  The
    promise settles in that way too, unless the timer of one of the requests
    that were answered by a redirect fires first: then it has resolved with
    [false] while the chain was still being followed. *)
Theorem redirect_chain_followed_to_end hops :
  forall url outputPath w fuel,
    Forall (fun u => url_protocol (target u) = Some "https:") (url :: hops) ->
    chain network url hops ->
    length hops < fuel ->
    tryDownload url_protocol network timer_fires opens fuel url outputPath w =
    let ending :=
      settle opens (network (target (List.last hops url))) outputPath
        (MkWorld (files w) (requests w ++ map target (url :: hops))) in
    (overtake (fired timer_fires (requests w) (url :: hops)) (fst ending),
     snd ending).
Proof.
  induction hops as [|next rest IH]; intros url outputPath w fuel Hp Hc Hf;
    (destruct fuel as [|fuel]; [simpl in Hf; lia|]);
    cbn [tryDownload]; inversion Hp as [|? ? Hu Hrest]; subst;
    rewrite (thrown_https _ _ Hu).
  - simpl in Hc. rewrite Hc. cbv zeta. cbn [fired overtake List.last map].
    destruct (settle _ _ _ _); reflexivity.
  - destruct Hc as [Hr Hc]. rewrite Hr.
    rewrite (IH next outputPath _ fuel Hrest Hc ltac:(simpl in Hf; lia)).
    cbv zeta. cbn [files requests]. rewrite <- app_assoc.
    rewrite last_cons.
    change ([target url] ++ map target (next :: rest))
      with (map target (url :: next :: rest)).
    destruct (settle _ _ _ _) as [ending w'] eqn:E. cbn [fst snd].
    destruct (overtake (fired timer_fires (requests w ++ [target url])
                          (next :: rest)) ending) as [ok|message| | |behind]
      eqn:Eo;
      try (rewrite <- Eo, overtake_overtake; reflexivity).
    exfalso. apply overtake_not_rejected in Eo. subst ending.
    eapply settle_not_rejected, E.
Qed.

End Redirects.

Lemma target_loop : target "https://a.example/loop" = "https:///a.example/loop".
Proof. vm_compute. reflexivity. Qed.

Lemma redirect_loop_pending timer_fires fuel :
  forall w,
    exists o,
      tryDownload all_https redirect_loop timer_fires writable fuel
        "https://a.example/loop" "out.js" w
      = (o,
         MkWorld (files w)
           (requests w ++ repeat "https:///a.example/loop" fuel))
      /\ behind_of o = Pending.
Proof.
  induction fuel as [|fuel IH]; intros w.
  - exists Pending. simpl. rewrite app_nil_r. destruct w; split; reflexivity.
  - cbn [tryDownload]. rewrite thrown_https by reflexivity.
    rewrite target_loop.
    change (redirects (redirect_loop "https:///a.example/loop"))
      with (Some "https://a.example/loop").
    cbv beta iota.
    destruct (IH (MkWorld (files w)
                    (requests w ++ ["https:///a.example/loop"])))
      as (o & -> & Ho).
    cbn [files requests repeat]. rewrite <- app_assoc.
    destruct o as [ok|message| | |behind]; try discriminate;
      (eexists; split; [reflexivity|]); rewrite behind_of_overtake; exact Ho.
Qed.

(** C3 (counterexample): on a network where a URL redirects to itself,
    [tryDownload] follows the chain without end: with any number of requests
    allowed it makes them all and is still following redirects, whether a
    timer has resolved the promise in the meantime or not. *)
Lemma redirect_loop_is_followed_without_end :
  follows_forever redirect_loop "https://a.example/loop".
Proof.
  intros timer_fires fuel.
  destruct (redirect_loop_pending timer_fires fuel (MkWorld ∅ []))
    as (o & E & Ho).
  eexists o, _. split; [exact E|]. split; [exact Ho|].
  cbn [requests]. rewrite length_app, repeat_length. reflexivity.
Qed.

Lemma redirect_chain_followed_to_end_witness :
  tryDownload all_https three_hops every_timer writable 4
    "https://a.example/0" "out.js" (MkWorld ∅ [])
  = let ending :=
      settle writable (three_hops (target "https://a.example/3")) "out.js"
        (MkWorld ∅
           ([] ++ map target ["https://a.example/0"; "https://a.example/1";
                              "https://a.example/2"; "https://a.example/3"]))
    in
    (overtake
       (fired every_timer []
          ["https://a.example/0"; "https://a.example/1";
           "https://a.example/2"; "https://a.example/3"])
       (fst ending),
     snd ending).
Proof.
  apply (redirect_chain_followed_to_end all_https three_hops every_timer
           writable
           ["https://a.example/1"; "https://a.example/2";
            "https://a.example/3"]
           "https://a.example/0" "out.js" (MkWorld ∅ []) 4).
  - repeat constructor.
  - vm_compute. repeat split; reflexivity.
  - simpl. lia.
Defined.

(** On a record that passes the test of the first [if], the download is the
    one attempt at the vendor URL. *)
Lemma vendor_single_attempt url_protocol network timer_fires opens path_join
    fuel d outputDir w :
  splices d = true ->
  is_vendor d = true ->
  downloadDependency url_protocol network timer_fires opens path_join fuel d
    outputDir w
  = tryDownload url_protocol network timer_fires opens fuel (vendor_url d)
      (outputPath path_join outputDir d) w.
Proof. unfold downloadDependency. intros -> ->. reflexivity. Qed.

(** C2: a dependency of a [bender] object with a base URL and a path prefix
    is tried at its vendor URL only.  Here that URL answers 404 and each of
    the fifteen other candidates would serve a script: the download resolves
    with [false] after the one request and writes no file, whatever the
    timers do. *)
Theorem vendor_download_has_no_fallback timer_fires :
  is_vendor widget = true
  /\ downloadDependency all_https vendor_missing timer_fires writable Path.join
       5 widget "/out" (MkWorld ∅ [])
     = (Resolved false,
        MkWorld ∅ ["https:///static.example.net/widget-1.2/bundles/widget.js"])
  /\ length (urls widget) = 15
  /\ fst (try_each all_https vendor_missing timer_fires writable 5 (urls widget)
            (outputPath Path.join "/out" widget) (MkWorld ∅ []))
     = Resolved true.
Proof. vm_compute. repeat split; reflexivity. Qed.

(** C8: a candidate answers 200, sends the start of its body and then nothing
    until the timeout of the request fires.  The attempt resolves with
    [false] and the part written stays at the output path; the candidates
    after it answer 404, and the file is still there when the download gives
    up. *)
Theorem stalled_download_leaves_partial_file timer_fires :
  tryDownload all_https first_stalls timer_fires writable 5
    "https://cdn.example.com/left-pad@1.3.0/dist/left-pad.js"
    "/out/left-pad@1.3.0.js" (MkWorld ∅ [])
  = (Resolved false,
     MkWorld {[ "/out/left-pad@1.3.0.js" := "func" ]}
       ["https:///cdn.example.com/left-pad@1.3.0/dist/left-pad.js"])
  /\ fst (downloadDependency all_https first_stalls timer_fires writable
            Path.join 5 left_pad "/out" (MkWorld ∅ []))
     = Rejected "No valid download URL found"
  /\ files (snd (downloadDependency all_https first_stalls timer_fires writable
                   Path.join 5 left_pad "/out" (MkWorld ∅ [])))
     = {[ "/out/left-pad@1.3.0.js" := "func" ]}.
Proof. vm_compute. repeat split; reflexivity. Qed.

(** C9 (counterexample): two different records, [a/b] and [a_b] at the same
    version, are given the same output path; both downloads succeed, and the
    second overwrites the artifact of the first. *)
Lemma slash_and_underscore_share_a_file :
  slashed <> underscored
  /\ filename slashed = filename underscored
  /\ outputPath Path.join "/out" slashed
     = outputPath Path.join "/out" underscored
  /\ download_all all_https two_scripts no_timer writable Path.join 5
       [slashed; underscored] "/out" 0 (MkWorld ∅ [])
     = Finished 2
         (MkWorld {[ "/out/a_b@1.0.0.js" := "var underscored = 2" ]}
            ["https:///cdn.example.com/a/b@1.0.0/dist/a/b.js";
             "https:///cdn.example.com/a_b@1.0.0/dist/a_b.js"]).
Proof.
  split; [discriminate|]. vm_compute. repeat split; reflexivity.
Qed.

(** ** File names *)

Lemma search_chr_none p s :
  forall pos, Str.existsb p s = false -> search (Chr p) pos s = None.
Proof.
  induction s as [|a s IH]; intros pos H; [reflexivity|].
  simpl in H. apply orb_false_elim in H as [Ha H].
  cbn [search]. unfold match_at. cbn [run]. rewrite Ha. apply IH, H.
Qed.

Lemma flat_name_id s : has_slash s = false -> flat_name s = s.
Proof.
  unfold has_slash, flat_name, replace_all. intros H.
  cbn [replace_all_from]. unfold search_from.
  change (String.length s <? 0) with false. cbv iota.
  change (Lit "/") with (Chr (Chars.eqc "/")).
  change (Str.drop 0 s) with s.
  rewrite search_chr_none by exact H. reflexivity.
Qed.

Lemma append_cons a s t : String a s +:+ t = String a (s +:+ t).
Proof. reflexivity. Qed.

Lemma append_length s t :
  String.length (s +:+ t) = String.length s + String.length t.
Proof.
  induction s as [|a s IH]; [reflexivity|].
  rewrite append_cons. simpl. rewrite IH. reflexivity.
Qed.

Lemma append_assoc s t u : (s +:+ t) +:+ u = s +:+ (t +:+ u).
Proof.
  induction s as [|a s IH]; [reflexivity|].
  rewrite !append_cons, IH. reflexivity.
Qed.

Lemma append_cancel_r s1 s2 t : s1 +:+ t = s2 +:+ t -> s1 = s2.
Proof.
  revert s2. induction s1 as [|a s1 IH]; intros [|b s2] H.
  - reflexivity.
  - exfalso. apply (f_equal String.length) in H.
    change ("" +:+ t) with t in H.
    rewrite append_cons in H. simpl in H. rewrite append_length in H. lia.
  - exfalso. apply (f_equal String.length) in H.
    change ("" +:+ t) with t in H.
    rewrite append_cons in H. simpl in H. rewrite append_length in H. lia.
  - rewrite !append_cons in H. inversion H. f_equal. apply IH. assumption.
Qed.

Lemma existsb_append p s t :
  Str.existsb p (s +:+ t) = Str.existsb p s || Str.existsb p t.
Proof.
  induction s as [|a s IH]; [reflexivity|].
  rewrite append_cons. simpl. rewrite <- orb_assoc. f_equal. exact IH.
Qed.

(** Two texts cut at their last [@]. *)
Lemma split_at_last_at n1 n2 v1 v2 :
  has_at v1 = false -> has_at v2 = false ->
  n1 +:+ "@" +:+ v1 = n2 +:+ "@" +:+ v2 -> n1 = n2 /\ v1 = v2.
Proof.
  unfold has_at. intros H1 H2. revert n2.
  induction n1 as [|a n1 IH]; intros [|b n2] H;
    change ("" +:+ "@" +:+ v1) with (String "@" v1) in H;
    change ("" +:+ "@" +:+ v2) with (String "@" v2) in H;
    rewrite ?append_cons in H.
  - inversion H. auto.
  - exfalso. inversion H; subst.
    rewrite existsb_append in H1. simpl in H1.
    rewrite orb_true_r in H1. discriminate.
  - exfalso. inversion H; subst.
    rewrite existsb_append in H2. simpl in H2.
    rewrite orb_true_r in H2. discriminate.
  - inversion H; subst. destruct (IH n2) as [-> ->]; auto.
Qed.

(** ** The scan *)

Lemma dirent_nested_ind (P : dirent -> Prop) :
  (forall name file, P (File name file)) ->
  (forall name entries, Forall P entries -> P (Dir name entries)) ->
  forall e, P e.
Proof.
  intros Hf Hd. fix IH 1. intros [name file|name entries]; [apply Hf|].
  apply Hd. induction entries as [|e entries IHe]; constructor.
  - apply IH.
  - exact IHe.
Qed.

Section Reasons.

Variable path_join : string -> string -> string.
Variable path_relative : string -> string -> string.
Variable dir : string.

Lemma located_incl currentDir entries entries' fullPath name file :
  (forall e, In e entries -> In e entries') ->
  located path_join currentDir entries fullPath name file ->
  located path_join currentDir entries' fullPath name file.
Proof.
  intros Hi H. destruct H.
  - apply located_here. auto.
  - eapply located_below; eauto.
Qed.

Lemma justified_incl currentDir entries entries' m :
  (forall e, In e entries -> In e entries') ->
  justified path_join currentDir entries m -> justified path_join currentDir entries' m.
Proof.
  intros Hi (name & file & Hl & H). exists name, file.
  split; [eapply located_incl; eauto | exact H].
Qed.

Lemma fold_justified entries :
  Forall (fun e =>
            forall currentDir st,
              exists found,
                manifests (scanEntry path_join path_relative dir currentDir e st)
                = manifests st ++ found
                /\ Forall (justified path_join currentDir [e]) found) entries ->
  forall currentDir st,
    exists found,
      manifests (fold_left
                   (fun st e =>
                      scanEntry path_join path_relative dir currentDir e st)
                   entries st)
      = manifests st ++ found
      /\ Forall (justified path_join currentDir entries) found.
Proof.
  induction 1 as [|e rest He _ IH]; intros currentDir st; cbn [fold_left].
  - exists []. rewrite app_nil_r. split; [reflexivity|constructor].
  - destruct (He currentDir st) as (found1 & E1 & J1).
    destruct (IH currentDir
                (scanEntry path_join path_relative dir currentDir e st))
      as (found2 & E2 & J2).
    exists (found1 ++ found2). rewrite E2, E1, app_assoc.
    split; [reflexivity|]. apply Forall_app. split.
    + eapply Forall_impl; [exact J1|]. intros m. apply justified_incl.
      intros e' [<-|[]]. left. reflexivity.
    + eapply Forall_impl; [exact J2|]. intros m. apply justified_incl.
      intros e' H. right. exact H.
Qed.

Lemma scanEntry_justified e :
  forall currentDir st,
    exists found,
      manifests (scanEntry path_join path_relative dir currentDir e st)
      = manifests st ++ found
      /\ Forall (justified path_join currentDir [e]) found.
Proof.
  induction e as [name file|name entries IH] using dirent_nested_ind;
    intros currentDir st; cbn [scanEntry entry_name].
  - destruct (decide _) as [_|_].
    { exists []. rewrite app_nil_r. split; [reflexivity|constructor]. }
    unfold scanFile. cbn [manifests scannedFiles].
    destruct (filenameMatch name || contentMatch file) eqn:E.
    + eexists [_]. split; [reflexivity|]. constructor; [|constructor].
      exists name, file. cbn [path type].
      split; [apply located_here; left; reflexivity|].
      split; [exact E|reflexivity].
    + exists []. rewrite app_nil_r. split; [reflexivity|constructor].
  - destruct (decide _) as [_|_].
    { exists []. rewrite app_nil_r. split; [reflexivity|constructor]. }
    destruct (test skipped_directory name).
    { exists []. rewrite app_nil_r. split; [reflexivity|constructor]. }
    match goal with
    | |- context [fold_left _ entries ?st0] =>
        destruct (fold_justified entries IH (path_join currentDir name) st0)
          as (found & E & J)
    end.
    exists found. split; [exact E|].
    eapply Forall_impl; [exact J|]. intros m (fname & file & Hl & H).
    exists fname, file. split; [|exact H].
    eapply located_below; [left; reflexivity|exact Hl].
Qed.

(** Every candidate of a scan stands for a file the walk reached, and its
    reason is [filename] exactly when the name of that file matches. *)
Lemma findManifestFiles_justified entries m :
  In m (findManifestFiles path_join path_relative dir entries) ->
  justified path_join dir entries m.
Proof.
  unfold findManifestFiles, scanDirectory. intros H.
  destruct (fold_justified entries
              (proj2 (Forall_forall _ _) (fun e _ => scanEntry_justified e))
              dir (MkScan [] ∅)) as (found & E & J).
  rewrite E in H. cbn [manifests app] in H.
  rewrite Forall_forall in J. apply J, list_elem_of_In, H.
Qed.

End Reasons.

(** C10: a file whose name matches a manifest-name pattern and whose content
    matches the content check is pushed with the reason [filename]. *)
Theorem filename_reason_wins path_join path_relative dir currentDir name file st :
  filenameMatch name = true ->
  contentMatch file = true ->
  path_relative dir (path_join currentDir name) ∉ scannedFiles st ->
  manifests (scanEntry path_join path_relative dir currentDir (File name file) st)
  = manifests st ++ [MkManifest (path_join currentDir name) "filename"].
Proof.
  intros Hn Hc Hs. cbn [scanEntry entry_name].
  destruct (decide _) as [Hin|_]; [contradiction|].
  unfold scanFile. cbn [manifests scannedFiles]. rewrite Hn. reflexivity.
Qed.

Lemma filename_reason_wins_witness :
  manifests (scanEntry posix_join posix_relative "/work" "/work/src"
               (File "package.json" (Some left_pad_manifest)) (MkScan [] ∅))
  = [MkManifest "/work/src/package.json" "filename"].
Proof.
  apply (filename_reason_wins posix_join posix_relative "/work" "/work/src"
           "package.json" (Some left_pad_manifest) (MkScan [] ∅)).
  - vm_compute. reflexivity.
  - vm_compute. reflexivity.
  - apply not_elem_of_empty.
Defined.

(** C6: the comment of the content check says it looks at the first 1KB, and
    the read is given 0 and 1024, but [readFileSync] takes no offset and no
    length and returns the whole file.  A file with 1024 letters and then the
    word import becomes a candidate; its first 1024 bytes alone do not make
    one. *)
Theorem content_check_reads_whole_file :
  String.length padded_import = 1030
  /\ filenameMatch "notes.txt" = false
  /\ findManifestFiles posix_join posix_relative "/work"
       [File "notes.txt" (Some (Str.take 1024 padded_import))] = []
  /\ findManifestFiles posix_join posix_relative "/work"
       [File "notes.txt" (Some padded_import)]
     = [MkManifest "/work/notes.txt" "content"].
Proof. vm_compute. repeat split; reflexivity. Qed.

(** * Further properties *)

Import Tree Disk Text Extractor Samples.

(** ** Downloads and the files they leave *)

Section Files.

Variable url_protocol : string -> option string.
Variable network : string -> response.
Variable timer_fires : list string -> bool.
Variable opens : string -> bool.
Variable path_join : string -> string -> string.

Lemma left_by_after_failure outputPath fs fs1 fs2 ok :
  left_by network outputPath fs false fs1 ->
  left_by network outputPath fs1 ok fs2 ->
  left_by network outputPath fs ok fs2.
Proof.
  intros H1 H2. inversion H1; subst; clear H1; try exact H2;
    inversion H2; subst; clear H2;
    rewrite ?delete_delete_eq, ?delete_insert_eq, ?insert_delete_eq,
      ?insert_insert_eq;
    try (constructor; assumption).
Qed.

Lemma left_by_other_paths outputPath fs ok fs' p :
  left_by network outputPath fs ok fs' ->
  p <> outputPath -> fs' !! p = fs !! p.
Proof.
  intros H Hp. inversion H; subst;
    rewrite ?lookup_insert_ne, ?lookup_delete_ne by congruence; reflexivity.
Qed.

Lemma settle_left_by r outputPath w o w' :
  settle opens r outputPath w = (o, w') ->
  (exists url, r = network url) ->
  left_by network outputPath (files w) (succeeded o) (files w')
  /\ requests w' = requests w
  /\ overtaken o = false.
Proof.
  unfold settle, on_finish, Node.readFileSync. intros H Hr.
  destruct r as [|statusCode location [data|received]].
  - inversion H; subst. split; [constructor|split; reflexivity].
  - destruct (negb (statusCode =? 200)).
    { inversion H; subst. split; [constructor|split; reflexivity]. }
    destruct (negb (opens outputPath)).
    { inversion H; subst. split; [constructor|split; reflexivity]. }
    cbn [files requests] in H. rewrite lookup_insert_eq in H.
    destruct (test script_tokens data) eqn:Et; inversion H; subst;
      cbn [files requests succeeded].
    + split; [constructor; exact Et|split; reflexivity].
    + rewrite delete_insert_eq. split; [constructor|split; reflexivity].
  - destruct (negb (statusCode =? 200)).
    { inversion H; subst. split; [constructor|split; reflexivity]. }
    destruct (negb (opens outputPath)).
    { inversion H; subst. split; [constructor|split; reflexivity]. }
    inversion H; subst. cbn [files requests succeeded].
    split; [|split; reflexivity]. constructor.
    destruct Hr as [url Hr]. exists url, statusCode, location.
    symmetry. exact Hr.
Qed.

(** What a download leaves goes by how the download itself has ended, also
    when a timer has resolved its promise before. *)
Lemma tryDownload_left_by fuel :
  forall url outputPath w o w',
    tryDownload url_protocol network timer_fires opens fuel url outputPath w
    = (o, w') ->
    left_by network outputPath (files w) (succeeded (behind_of o)) (files w').
Proof.
  induction fuel as [|fuel IH]; intros url outputPath w o w' H;
    cbn [tryDownload] in H.
  - inversion H; subst. constructor.
  - destruct (thrown url_protocol url).
    { inversion H; subst. constructor. }
    destruct (redirects (network (target url))) as [location|].
    + destruct (tryDownload url_protocol network timer_fires opens fuel
                  location outputPath _) as [o1 w1] eqn:E.
      apply IH in E. cbn [files] in E.
      destruct o1 as [ok|message| | |behind]; inversion H; subst;
        rewrite ?behind_of_overtake; exact E.
    + apply settle_left_by in H as (H & _ & Ho); [|eauto].
      destruct o; try discriminate; exact H.
Qed.

Lemma try_each_left_by fuel urls :
  forall outputPath w o w',
    try_each url_protocol network timer_fires opens fuel urls outputPath w
    = (o, w') ->
    left_by network outputPath (files w) (succeeded (behind_of o)) (files w').
Proof.
  induction urls as [|url rest IH]; intros outputPath w o w' H;
    cbn [try_each] in H.
  - inversion H; subst. constructor.
  - destruct (tryDownload url_protocol network timer_fires opens fuel url
                outputPath w) as [o1 w1] eqn:E.
    apply tryDownload_left_by in E.
    destruct o1 as [[|]|message| | |behind];
      try (inversion H; subst; exact E).
    apply IH in H. eapply left_by_after_failure; eassumption.
Qed.

Lemma downloadDependency_left_by fuel d outputDir w o w' :
  downloadDependency url_protocol network timer_fires opens path_join fuel d
    outputDir w
  = (o, w') ->
  left_by network (outputPath path_join outputDir d) (files w)
    (succeeded (behind_of o)) (files w').
Proof.
  unfold downloadDependency. destruct (negb (splices d)).
  { intros H. inversion H; subst. constructor. }
  destruct (is_vendor d).
  - apply tryDownload_left_by.
  - apply try_each_left_by.
Qed.

(** X1: a download that resolves with [true] leaves at the output path of the
    record a file that passes the check for script tokens, and leaves every
    other file as it was. *)
Theorem resolved_download_leaves_validated_file fuel d outputDir w w' :
  downloadDependency url_protocol network timer_fires opens path_join fuel d
    outputDir w
  = (Resolved true, w') ->
  exists data,
    files w' = <[outputPath path_join outputDir d := data]> (files w)
    /\ test script_tokens data = true.
Proof.
  intros H. apply downloadDependency_left_by in H.
  cbn [behind_of succeeded] in H. inversion H; subst. eauto.
Qed.

(** X2: whatever its outcome, a download changes no file other than the one
    at the output path of its record. *)
Theorem download_touches_only_output_path fuel d outputDir w o w' p :
  downloadDependency url_protocol network timer_fires opens path_join fuel d
    outputDir w
  = (o, w') ->
  p <> outputPath path_join outputDir d ->
  files w' !! p = files w !! p.
Proof.
  intros H Hp. apply downloadDependency_left_by in H.
  eapply left_by_other_paths; eassumption.
Qed.


Lemma tryDownload_refused fuel url outputPath w :
  thrown url_protocol url = None ->
  refuses (network (target url)) = true ->
  tryDownload url_protocol network timer_fires opens (S fuel) url outputPath w
  = (Resolved false, MkWorld (files w) (requests w ++ [target url])).
Proof.
  intros Hp Hr. cbn [tryDownload]. rewrite Hp.
  unfold refuses in Hr. unfold redirects, settle.
  destruct (network (target url)) as [|statusCode location payload];
    [reflexivity|].
  apply andb_prop in Hr as [H1 H2].
  apply negb_true_iff in H1. rewrite H1, H2. reflexivity.
Qed.

(** The candidates the network refuses are passed over one by one. *)
Lemma try_each_refused_prefix fuel refused rest :
  forall outputPath w,
    Forall (fun url => thrown url_protocol url = None
                       /\ refuses (network (target url)) = true) refused ->
    try_each url_protocol network timer_fires opens (S fuel) (refused ++ rest)
      outputPath w
    = try_each url_protocol network timer_fires opens (S fuel) rest outputPath
        (MkWorld (files w) (requests w ++ map target refused)).
Proof.
  induction refused as [|url refused IH]; intros outputPath w H.
  - simpl. rewrite app_nil_r. destruct w; reflexivity.
  - inversion H as [|? ? [Hp Hr] H']; subst.
    change ((url :: refused) ++ rest) with (url :: (refused ++ rest)).
    cbn [try_each]. rewrite (tryDownload_refused _ _ _ _ Hp Hr).
    rewrite IH by exact H'. cbn [files requests map].
    rewrite <- app_assoc. reflexivity.
Qed.

(** X4: for a record whose fields can be spliced into the URLs and that is
    not tried at a vendor URL, when [new URL] and [https.get] take every
    candidate and the network refuses each of them, the download requests
    the fifteen candidates in their order, writes nothing, and is rejected
    with the message [No valid download URL found]. *)
Theorem exhausted_candidates_reject fuel d outputDir w :
  splices d = true ->
  is_vendor d = false ->
  Forall (fun url => thrown url_protocol url = None
                     /\ refuses (network (target url)) = true) (urls d) ->
  downloadDependency url_protocol network timer_fires opens path_join (S fuel)
    d outputDir w
  = (Rejected "No valid download URL found",
     MkWorld (files w) (requests w ++ map target (urls d)))
  /\ length (urls d) = 15.
Proof.
  intros Hs Hv H. split; [|reflexivity]. unfold downloadDependency.
  rewrite Hs, Hv. cbn [negb].
  rewrite <- (app_nil_r (urls d)) at 1.
  rewrite try_each_refused_prefix by exact H. reflexivity.
Qed.

(** X5: the first candidate that answers 200 with a body that passes the
    check ends the loop, when its file can be written: the candidates before
    it, which the network refuses, are requested in their order, its body
    becomes the file at the output path, and no candidate after it is
    requested. *)
Theorem first_valid_candidate_wins fuel refused url rest outputPath w
    location data :
  Forall (fun url => thrown url_protocol url = None
                     /\ refuses (network (target url)) = true) refused ->
  thrown url_protocol url = None ->
  network (target url) = Response 200 location (Complete data) ->
  opens outputPath = true ->
  test script_tokens data = true ->
  try_each url_protocol network timer_fires opens (S fuel)
    (refused ++ url :: rest) outputPath w
  = (Resolved true,
     MkWorld (<[outputPath := data]> (files w))
       (requests w ++ map target (refused ++ [url]))).
Proof.
  intros H Hp Hn Ho Ht. rewrite try_each_refused_prefix by exact H.
  cbn [try_each tryDownload]. rewrite Hp, Hn. cbn [redirects is_redirect].
  cbn [existsb Nat.eqb orb andb]. unfold settle. rewrite Ho.
  cbn [Nat.eqb negb files requests].
  unfold on_finish, Node.readFileSync. cbn [files requests].
  rewrite lookup_insert_eq, Ht. rewrite map_app, app_assoc. reflexivity.
Qed.

(** X6: a candidate on which [new URL] throws, or [https.get] because its
    protocol is not [https:], ends the download with that rejection: no
    request is made for it, and the candidates after it are not tried. *)
Theorem unusable_candidate_ends_download fuel refused url rest outputPath w
    message :
  Forall (fun url => thrown url_protocol url = None
                     /\ refuses (network (target url)) = true) refused ->
  thrown url_protocol url = Some message ->
  try_each url_protocol network timer_fires opens (S fuel)
    (refused ++ url :: rest) outputPath w
  = (Rejected message,
     MkWorld (files w) (requests w ++ map target refused)).
Proof.
  intros H Hp. rewrite try_each_refused_prefix by exact H.
  cbn [try_each tryDownload]. rewrite Hp. reflexivity.
Qed.

Lemma download_all_frame fuel dependencies :
  forall outputDir downloaded w p,
    ~ In p (map (outputPath path_join outputDir) dependencies) ->
    files (world_of (download_all url_protocol network timer_fires opens
                       path_join fuel dependencies outputDir downloaded w))
      !! p
    = files w !! p.
Proof.
  induction dependencies as [|d rest IH]; intros outputDir downloaded w p Hp;
    cbn [download_all]; [reflexivity|].
  destruct (downloadDependency url_protocol network timer_fires opens
              path_join fuel d outputDir w) as [o w1] eqn:E.
  assert (files w1 !! p = files w !! p) as E1.
  { apply downloadDependency_left_by in E.
    eapply left_by_other_paths; [exact E|].
    intros ->. apply Hp. left. reflexivity. }
  assert (~ In p (map (outputPath path_join outputDir) rest)) as Hrest
      by (intros Hin; apply Hp; right; exact Hin).
  destruct o as [[|]|message| | |behind]; cbn [world_of];
    rewrite ?IH by exact Hrest; exact E1.
Qed.

(** X7: a session changes no file other than those at the output paths of
    its records. *)
Theorem session_touches_only_output_paths fuel dependencies outputDir w p :
  ~ In p (map (outputPath path_join outputDir) dependencies) ->
  files (world_of (download_all url_protocol network timer_fires opens
                     path_join fuel dependencies outputDir 0 w)) !! p
  = files w !! p.
Proof. apply download_all_frame. Qed.

Lemma download_all_tally fuel dependencies :
  forall outputDir downloaded w n w',
    NoDup (map (outputPath path_join outputDir) dependencies) ->
    (forall d, In d dependencies ->
               files w !! outputPath path_join outputDir d = None) ->
    never_stalls network ->
    download_all url_protocol network timer_fires opens path_join fuel
      dependencies outputDir downloaded w
    = Finished n w' ->
    n = downloaded
        + length (filter (fun d =>
                            is_Some (files w'
                                       !! outputPath path_join outputDir d))
                    dependencies)
    /\ forall d content,
         In d dependencies ->
         files w' !! outputPath path_join outputDir d = Some content ->
         test script_tokens content = true.
Proof.
  induction dependencies as [|d rest IH];
    intros outputDir downloaded w n w' Hnd Hnone Hstall H;
    cbn [download_all] in H.
  - inversion H; subst. split; [simpl; lia|intros ? ? []].
  - cbn [map] in Hnd. apply NoDup_cons in Hnd as [Hd Hnd].
    rewrite list_elem_of_In in Hd.
    destruct (downloadDependency url_protocol network timer_fires opens
                path_join fuel d outputDir w) as [o w1] eqn:E.
    apply downloadDependency_left_by in E.
    assert (forall d', In d' rest ->
                       files w1 !! outputPath path_join outputDir d' = None)
      as Hnone1.
    { intros d' Hin.
      rewrite (left_by_other_paths _ _ _ _ _ E).
      - apply Hnone. right. exact Hin.
      - intros Heq. apply Hd. rewrite <- Heq. apply in_map, Hin. }
    assert (succeeded (behind_of o) = false
            /\ files w1 !! outputPath path_join outputDir d = None
            \/ succeeded (behind_of o) = true
               /\ exists data,
                    files w1 !! outputPath path_join outputDir d = Some data
                    /\ test script_tokens data = true) as Hhere.
    { inversion E; subst.
      - right. split; [reflexivity|]. eexists. split; [apply lookup_insert_eq|].
        assumption.
      - left. split; [reflexivity|]. apply Hnone. left. reflexivity.
      - left. split; [reflexivity|]. apply lookup_delete_eq.
      - match goal with
        | Hu : unfinished _ _ |- _ =>
            destruct Hu as (url & statusCode & location & Hs)
        end.
        exfalso. eapply Hstall, Hs. }
    assert (forall k,
               download_all url_protocol network timer_fires opens path_join
                 fuel rest outputDir k w1 = Finished n w' ->
               files w' !! outputPath path_join outputDir d
               = files w1 !! outputPath path_join outputDir d) as Hkeep.
    { intros k Hk.
      pose proof (download_all_frame fuel rest outputDir k w1 _ Hd) as Hf.
      rewrite Hk in Hf. exact Hf. }
    destruct o as [[|]|message| | |behind]; try discriminate;
      cbn [behind_of succeeded] in Hhere.
    + destruct Hhere as [[? _]|(_ & data & Hdata & Ht)]; [discriminate|].
      pose proof (Hkeep _ H) as Hk. rewrite Hdata in Hk.
      destruct (IH _ _ _ _ _ Hnd Hnone1 Hstall H) as [-> Hval].
      split.
      * rewrite filter_cons_True by (rewrite Hk; eauto). simpl. lia.
      * intros d' content [<-|Hin] Hc; [congruence|eauto].
    + destruct Hhere as [[_ Hn]|[? _]]; [|discriminate].
      pose proof (Hkeep _ H) as Hk. rewrite Hn in Hk.
      destruct (IH _ _ _ _ _ Hnd Hnone1 Hstall H) as [-> Hval].
      split.
      * rewrite filter_cons_False
          by (rewrite Hk; intros [? ?]; discriminate). reflexivity.
      * intros d' content [<-|Hin] Hc; [congruence|eauto].
    + destruct Hhere as [[_ Hn]|[? _]]; [|discriminate].
      pose proof (Hkeep _ H) as Hk. rewrite Hn in Hk.
      destruct (IH _ _ _ _ _ Hnd Hnone1 Hstall H) as [-> Hval].
      split.
      * rewrite filter_cons_False
          by (rewrite Hk; intros [? ?]; discriminate). reflexivity.
      * intros d' content [<-|Hin] Hc; [congruence|eauto].
Qed.

(** X8: when the records of a session have output paths of their own, none of
    which holds a file beforehand, and no body stops half-way, the count
    [downloaded] of a session that finishes (no download of it was overtaken
    by a timer, left pending, or ended the process) is the number of records
    whose file is on disk afterwards, and each of these files passes the
    check for script tokens. *)
Theorem session_tally_counts_files fuel dependencies outputDir w n w' :
  NoDup (map (outputPath path_join outputDir) dependencies) ->
  (forall d, In d dependencies ->
             files w !! outputPath path_join outputDir d = None) ->
  never_stalls network ->
  download_all url_protocol network timer_fires opens path_join fuel
    dependencies outputDir 0 w
  = Finished n w' ->
  n = length (filter (fun d =>
                        is_Some (files w' !! outputPath path_join outputDir d))
                dependencies)
  /\ forall d content,
       In d dependencies ->
       files w' !! outputPath path_join outputDir d = Some content ->
       test script_tokens content = true.
Proof. apply download_all_tally. Qed.

End Files.

(** ** The walk and its candidates *)

Section Scan.

#[local] Set Warnings "-clear-no-such-hyp".

Variable path_join : string -> string -> string.
Variable path_relative : string -> string -> string.
Variable dir : string.

Local Abbreviation scan := (scanEntry path_join path_relative dir).
Local Abbreviation found' := (found path_join).
Local Abbreviation visited' := (visited path_join path_relative dir).

Lemma scanFile_candidate fullPath name file st :
  scanFile fullPath name file st
  = MkScan (manifests st ++ candidate fullPath name file) (scannedFiles st).
Proof.
  unfold scanFile, candidate.
  destruct (filenameMatch name || contentMatch file); [reflexivity|].
  rewrite app_nil_r. destruct st; reflexivity.
Qed.

Local Abbreviation exact_on := (Tree.exact_on path_join path_relative dir).

Lemma fold_exact entries :
  forall currentDir st,
    Forall (fun e => forall currentDir, exact_on currentDir e) entries ->
    NoDup (flat_map (visited' currentDir) entries) ->
    (forall p, p ∈ flat_map (visited' currentDir) entries ->
               p ∉ scannedFiles st) ->
    fold_left (fun st e => scan currentDir e st) entries st
    = MkScan (manifests st ++ flat_map (found' currentDir) entries)
             (list_to_set (flat_map (visited' currentDir) entries)
              ∪ scannedFiles st).
Proof.
  induction entries as [|e rest IH]; intros currentDir st Hex Hnd Hnew.
  - cbn [fold_left flat_map]. rewrite app_nil_r. destruct st as [m s].
    cbn [manifests scannedFiles]. f_equal. set_solver.
  - cbn [fold_left flat_map] in *.
    inversion Hex as [|? ? He Hrest]; subst.
    apply NoDup_app in Hnd as (Hnd1 & Hdisj & Hnd2).
    rewrite (He currentDir st Hnd1)
      by (intros p Hp; apply Hnew, elem_of_app; left; exact Hp).
    rewrite (IH currentDir _ Hrest Hnd2).
    + cbn [manifests scannedFiles]. rewrite <- app_assoc. f_equal.
      rewrite list_to_set_app_L. set_solver.
    + intros p Hp. cbn [scannedFiles]. rewrite elem_of_union.
      intros [Hin|Hin].
      * rewrite elem_of_list_to_set in Hin. exact (Hdisj p Hin Hp).
      * revert Hin. apply Hnew, elem_of_app. right. exact Hp.
Qed.

Lemma scanEntry_exact e : forall currentDir, exact_on currentDir e.
Proof.
  induction e as [name file|name entries IH] using dirent_nested_ind;
    intros currentDir st Hnd Hnew; cbn [scanEntry entry_name].
  - cbn [visited entry_name] in *.
    destruct (decide _) as [Hin|_].
    { exfalso. eapply Hnew; [|exact Hin]. left. }
    rewrite scanFile_candidate. cbn [manifests scannedFiles found].
    f_equal. set_solver.
  - cbn [visited entry_name found] in *.
    destruct (decide _) as [Hin|_].
    { exfalso. eapply Hnew; [|exact Hin]. left. }
    destruct (test skipped_directory name).
    { rewrite app_nil_r. f_equal. set_solver. }
    apply NoDup_cons in Hnd as [Hrel Hnd].
    rewrite (fold_exact entries _ _ IH Hnd).
    + cbn [manifests scannedFiles]. f_equal. set_solver.
    + intros p Hp. cbn [scannedFiles]. rewrite elem_of_union, elem_of_singleton.
      intros [->|Hin]; [exact (Hrel Hp)|].
      revert Hin. apply Hnew. right. exact Hp.
Qed.

(** X9: when the entries of a tree below directories that are not skipped
    have relative paths of their own, the scan returns, in the order of the
    listings, exactly the files whose name or content matches, each with the
    reason [filename] when its name matches and [content] otherwise; what
    lies below a directory with a skipped name gives nothing. *)
Theorem scan_of_distinct_paths entries :
  NoDup (flat_map (visited' dir) entries) ->
  findManifestFiles path_join path_relative dir entries
  = flat_map (found' dir) entries.
Proof.
  intros Hnd. unfold findManifestFiles, scanDirectory.
  rewrite (fold_exact entries dir (MkScan [] ∅)).
  - reflexivity.
  - apply Forall_forall. intros e _. apply scanEntry_exact.
  - exact Hnd.
  - intros p _. apply not_elem_of_empty.
Qed.

Lemma fold_sound entries :
  forall currentDir st,
    Forall (fun e =>
              forall currentDir st,
                exists new,
                  manifests (scan currentDir e st) = manifests st ++ new
                  /\ forall m, In m new -> In m (found' currentDir e))
      entries ->
    exists new,
      manifests (fold_left (fun st e => scan currentDir e st) entries st)
      = manifests st ++ new
      /\ forall m, In m new -> In m (flat_map (found' currentDir) entries).
Proof.
  induction entries as [|e rest IH]; intros currentDir st H;
    cbn [fold_left flat_map].
  - exists []. rewrite app_nil_r. split; [reflexivity|intros ? []].
  - inversion H as [|? ? He Hrest]; subst.
    destruct (He currentDir st) as (new1 & E1 & S1).
    destruct (IH currentDir (scan currentDir e st) Hrest) as (new2 & E2 & S2).
    exists (new1 ++ new2). rewrite E2, E1, app_assoc. split; [reflexivity|].
    intros m Hm. apply in_app_or in Hm as [Hm|Hm]; apply in_or_app; auto.
Qed.

Lemma scanEntry_sound e :
  forall currentDir st,
    exists new,
      manifests (scan currentDir e st) = manifests st ++ new
      /\ forall m, In m new -> In m (found' currentDir e).
Proof.
  induction e as [name file|name entries IH] using dirent_nested_ind;
    intros currentDir st; cbn [scanEntry entry_name found].
  - destruct (decide _) as [_|_].
    { exists []. rewrite app_nil_r. split; [reflexivity|intros ? []]. }
    rewrite scanFile_candidate. cbn [manifests]. eauto.
  - destruct (decide _) as [_|_].
    { exists []. rewrite app_nil_r. split; [reflexivity|intros ? []]. }
    destruct (test skipped_directory name).
    { exists []. rewrite app_nil_r. split; [reflexivity|intros ? []]. }
    match goal with
    | |- context [fold_left _ entries ?st0] =>
        destruct (fold_sound entries (path_join currentDir name) st0 IH)
          as (new & E & S)
    end.
    exists new. split; [exact E|exact S].
Qed.

(** X10: in any tree, every candidate of a scan is the candidate of a file
    whose name or content matches and which lies below no directory with a
    skipped name ([node_modules], [dist], [build], [.git], [.cache] anywhere
    in the name, whatever the case). *)
Theorem candidates_are_found entries m :
  In m (findManifestFiles path_join path_relative dir entries) ->
  In m (flat_map (found' dir) entries).
Proof.
  unfold findManifestFiles, scanDirectory. intros H.
  destruct (fold_sound entries dir (MkScan [] ∅)) as (new & E & S).
  - apply Forall_forall. intros e _. apply scanEntry_sound.
  - rewrite E in H. apply S, H.
Qed.

Lemma fold_grows entries :
  forall currentDir st,
    Forall (fun e =>
              forall currentDir st,
                scannedFiles st ⊆ scannedFiles (scan currentDir e st))
      entries ->
    scannedFiles st
    ⊆ scannedFiles (fold_left (fun st e => scan currentDir e st) entries st).
Proof.
  induction entries as [|e rest IH]; intros currentDir st H; cbn [fold_left].
  - reflexivity.
  - inversion H as [|? ? He Hrest]; subst.
    etrans; [apply He|]. apply IH, Hrest.
Qed.

Lemma scanEntry_grows e :
  forall currentDir st,
    scannedFiles st ⊆ scannedFiles (scan currentDir e st).
Proof.
  induction e as [name file|name entries IH] using dirent_nested_ind;
    intros currentDir st; cbn [scanEntry entry_name].
  - destruct (decide _) as [_|_]; [reflexivity|].
    rewrite scanFile_candidate. cbn [scannedFiles]. apply union_subseteq_r.
  - destruct (decide _) as [_|_]; [reflexivity|].
    destruct (test skipped_directory name).
    { cbn [scannedFiles]. apply union_subseteq_r. }
    etrans; [|apply fold_grows, IH]. cbn [scannedFiles].
    apply union_subseteq_r.
Qed.

Lemma scanEntry_marks e currentDir st :
  path_relative dir (path_join currentDir (entry_name e))
  ∈ scannedFiles (scan currentDir e st).
Proof.
  destruct e as [name file|name entries]; cbn [scanEntry entry_name].
  - destruct (decide _) as [Hin|_]; [exact Hin|].
    rewrite scanFile_candidate. cbn [scannedFiles].
    apply elem_of_union_l, elem_of_singleton. reflexivity.
  - destruct (decide _) as [Hin|_]; [exact Hin|].
    destruct (test skipped_directory name).
    { cbn [scannedFiles]. apply elem_of_union_l, elem_of_singleton.
      reflexivity. }
    eapply fold_grows.
    + apply Forall_forall. intros e _. apply scanEntry_grows.
    + cbn [scannedFiles]. apply elem_of_union_l, elem_of_singleton.
      reflexivity.
Qed.

(** X11: an entry is gone through once: the walk that comes by the same entry
    of the same directory again leaves the candidates and the set of scanned
    paths as they are. *)
Theorem rescanning_changes_nothing e currentDir st :
  scanEntry path_join path_relative dir currentDir e
    (scanEntry path_join path_relative dir currentDir e st)
  = scanEntry path_join path_relative dir currentDir e st.
Proof.
  pose proof (scanEntry_marks e currentDir st) as Hin.
  generalize dependent (scan currentDir e st). intros st1 Hin.
  destruct e as [name file|name entries]; cbn [scanEntry entry_name] in *;
    destruct (decide _) as [_|Hout]; try reflexivity; contradiction.
Qed.

End Scan.

(** ** Parsing *)

Section Fallback.

Variable Sandbox : Type.
Variable createContext : Sandbox.
Variable runInContext : string -> Sandbox -> option Js.JsVal * Sandbox.
Variable JSON_parse : string -> option Js.JsVal.
Variable yaml_load : string -> option Js.JsVal.

Local Abbreviation extract :=
  (extractDependencies Sandbox createContext runInContext JSON_parse
     yaml_load).

(** X12: on a manifest that comes down to the textual-regex fallback and whose
    text matches one of the two block patterns, the function never returns:
    the [while] loop over a pattern without the [g] flag finds the same match
    at every turn. *)
Theorem block_text_never_returns content :
  let first := runInContext (script_namespace content) createContext in
  let second := runInContext (script_exports content) (snd first) in
  exposes_versions (fst first) = false ->
  exposes_versions (fst second) = false ->
  mapping_of (JSON_parse content) = None ->
  (looks_like_yaml content = true -> mapping_of (yaml_load content) = None) ->
  block_matches content = true ->
  never_returns (fun fuel => extract fuel content).
Proof.
  intros first second H1 H2 Hj Hy Hb fuel. subst first second. cbv beta.
  unfold extractDependencies.
  rewrite (run_scripts_spec Sandbox createContext runInContext). cbv zeta.
  rewrite H1, H2, try_json_spec, Hj, try_yaml_spec.
  destruct (looks_like_yaml content).
  - rewrite Hy by reflexivity. apply regex_loop_never_returns, Hb.
  - apply regex_loop_never_returns, Hb.
Qed.

(** X13: when no script exposes a version map and [JSON.parse] gives a value
    whose [dependencies] is an object, the function returns one record for
    each property of that object, in the order of the properties, with the
    key as name, the value as version, the source [package.json], and neither
    path prefix nor base URL. *)
Theorem json_dependencies_become_records fuel content data props :
  let first := runInContext (script_namespace content) createContext in
  let second := runInContext (script_exports content) (snd first) in
  exposes_versions (fst first) = false ->
  exposes_versions (fst second) = false ->
  JSON_parse content = Some data ->
  Js.get data "dependencies" = Some (Js.JObj props) ->
  exists dependencies log,
    extract fuel content = Done dependencies log
    /\ map (fun r => (name r, version r)) dependencies = props
    /\ Forall (fun r => source r = "package.json"
                        /\ pathPrefix r = Js.JUndefined
                        /\ baseUrl r = Js.JUndefined) dependencies.
Proof.
  intros first second H1 H2 Hj Hd. subst first second.
  unfold extractDependencies.
  rewrite (run_scripts_spec Sandbox createContext runInContext). cbv zeta.
  rewrite H1, H2, try_json_spec. unfold mapping_of. rewrite Hj, Hd.
  eexists _, _. split; [reflexivity|].
  unfold records. cbn [Js.truthy Js.entries app].
  change (default [] (Some props)) with props. clear Hd. split.
  - induction props as [|[k v] props IH]; [reflexivity|].
    cbn [map plain_dep name version]. f_equal. exact IH.
  - apply Forall_forall. intros r Hr. apply list_elem_of_In in Hr.
    apply in_map_iff in Hr as ([k v] & <- & _). cbn. auto.
Qed.

End Fallback.

(** ** The YAML marker *)

Lemma existsb_drop_true p n s :
  Str.existsb p (Str.drop n s) = true -> Str.existsb p s = true.
Proof.
  intros H. destruct (Str.existsb p s) eqn:E; [reflexivity|].
  rewrite (existsb_drop _ n _ E) in H. discriminate.
Qed.

Lemma yaml_marker_at pos t m :
  match_at yaml_marker pos t = Some m ->
  pos = 0 /\ Str.is_prefix "---" t = true \/ has_colon t = true.
Proof.
  unfold match_at, yaml_marker. cbn [run Lit Lit1].
  destruct (pos =? 0) eqn:Ep.
  - destruct t as [|a1 [|a2 [|a3 t]]]; cbn [Str.is_prefix];
      try (destruct (Chars.eqc "-" a1));
      try (destruct (Chars.eqc "-" a2));
      try (destruct (Chars.eqc "-" a3));
      cbn [andb]; intros H;
      try (left; split; [apply Nat.eqb_eq, Ep|reflexivity]);
      try discriminate;
      right; unfold has_colon; cbn [Str.existsb];
      repeat match type of H with
             | context [Chars.eqc ":" ?a] =>
                 destruct (Chars.eqc ":" a); [reflexivity|]
             end; try discriminate.
  - destruct t as [|a t]; [discriminate|].
    unfold has_colon. cbn [Str.existsb].
    destruct (Chars.eqc ":" a); [auto|discriminate].
Qed.

Lemma existsb_rev_onto p s :
  forall acc,
    Str.existsb p (Str.rev_onto s acc) = Str.existsb p s || Str.existsb p acc.
Proof.
  induction s as [|a s IH]; intros acc; [reflexivity|].
  cbn [Str.rev_onto Str.existsb]. rewrite IH. cbn [Str.existsb].
  destruct (p a), (Str.existsb p s); reflexivity.
Qed.

Lemma existsb_rev p s : Str.existsb p (Str.rev s) = Str.existsb p s.
Proof.
  unfold Str.rev. rewrite existsb_rev_onto. cbn [Str.existsb].
  apply orb_false_r.
Qed.

Lemma existsb_trim_start p s :
  (forall a, p a = true -> Chars.is_space a = false) ->
  Str.existsb p (Str.trim_start s) = Str.existsb p s.
Proof.
  intros Hp. induction s as [|a s IH]; [reflexivity|].
  cbn [Str.trim_start]. destruct (Chars.is_space a) eqn:Ea; [|reflexivity].
  rewrite IH. cbn [Str.existsb]. destruct (p a) eqn:Epa; [|reflexivity].
  rewrite (Hp a Epa) in Ea. discriminate.
Qed.

Lemma existsb_trim p s :
  (forall a, p a = true -> Chars.is_space a = false) ->
  Str.existsb p (Str.trim s) = Str.existsb p s.
Proof.
  intros Hp. unfold Str.trim.
  rewrite existsb_rev, existsb_trim_start, existsb_rev, existsb_trim_start;
    auto.
Qed.

Lemma colon_not_space a :
  Chars.eqc ":" a = true -> Chars.is_space a = false.
Proof. destruct a as [[] [] [] [] [] [] [] []]; vm_compute; congruence. Qed.

Lemma search_yaml_marker_colon t :
  forall pos, has_colon t = true -> search yaml_marker pos t <> None.
Proof.
  unfold has_colon. induction t as [|a t IH]; intros pos H; [discriminate|].
  cbn [Str.existsb] in H. cbn [search].
  destruct (match_at yaml_marker pos (String a t)) eqn:E; [discriminate|].
  destruct (Chars.eqc ":" a) eqn:Ea.
  - exfalso. revert E. unfold match_at, yaml_marker. cbn [run Lit Lit1].
    rewrite Ea.
    match goal with
    | |- match ?e with Some _ => _ | None => _ end = None -> _ =>
        destruct e; discriminate
    end.
  - apply IH, H.
Qed.

(** X14: [yaml.load] is tried on the texts that hold a colon anywhere or that
    start, once trimmed, with three dashes, and on no other text. *)
Theorem yaml_is_tried_on_colon_or_dashes content :
  looks_like_yaml content = true
  <-> Str.is_prefix "---" (Str.trim content) = true
      \/ has_colon content = true.
Proof.
  unfold looks_like_yaml, test, search_from.
  change (String.length (Str.trim content) <? 0) with false. cbv iota.
  change (Str.drop 0 (Str.trim content)) with (Str.trim content).
  split.
  - destruct (search yaml_marker 0 (Str.trim content)) as [m|] eqn:E;
      [intros _|discriminate].
    apply search_inv in E as (j & _ & E).
    apply yaml_marker_at in E as [[Hj Hp]|Hc].
    + left. assert (j = 0) as -> by lia. exact Hp.
    + right. apply existsb_drop_true in Hc.
      unfold has_colon in *. rewrite existsb_trim in Hc; [exact Hc|].
      apply colon_not_space.
  - intros [Hp|Hc].
    + destruct (Str.trim content) as [|a1 [|a2 [|a3 t]]];
        try discriminate; cbn [Str.is_prefix] in Hp;
        try (apply andb_prop in Hp as [H1 Hp]);
        try (apply andb_prop in Hp as [H2 Hp]);
        try (apply andb_prop in Hp as [H3 Hp]);
        try discriminate.
      cbn [search]. unfold match_at, yaml_marker. cbn [run Lit Lit1 Nat.eqb].
      rewrite H1, H2, H3. reflexivity.
    + assert (has_colon (Str.trim content) = true) as Ht.
      { unfold has_colon in *. rewrite existsb_trim; [exact Hc|].
        apply colon_not_space. }
      pose proof (search_yaml_marker_colon _ 0 Ht) as Hs.
      destruct (search yaml_marker 0 (Str.trim content)); congruence.
Qed.


(** ** File names *)


Lemma take_cons_slice i j a t s :
  Str.drop i s = String a t -> S i <= j ->
  Str.slice i j s = String a (Str.slice (S i) j s).
Proof.
  intros Hd Hj. unfold Str.slice. rewrite Hd.
  replace (j - i) with (S (j - S i)) by lia. cbn [Str.take]. f_equal.
  replace (S i) with (i + 1) by lia. rewrite <- drop_drop, Hd. reflexivity.
Qed.

Lemma drop_succ i s a t :
  Str.drop i s = String a t -> Str.drop (S i) s = t.
Proof.
  intros H. replace (S i) with (i + 1) by lia. rewrite <- drop_drop, H.
  reflexivity.
Qed.

Lemma drop_all s : Str.drop (String.length s) s = "".
Proof. induction s as [|a s IH]; [reflexivity|exact IH]. Qed.

Lemma replace_all_chr cls by_ s :
  forall n i fuel,
    String.length s - i = n -> i <= String.length s -> n < fuel ->
    replace_all_from fuel (Chr cls) (fun _ => Str.of_char by_) s i
    = map_chars (swap cls by_) (Str.drop i s).
Proof.
  induction n as [|n IH]; intros i fuel Hn Hi Hf;
    (destruct fuel as [|fuel]; [lia|]); cbn [replace_all_from].
  - assert (i = String.length s) as -> by lia.
    unfold search_from. rewrite Nat.ltb_irrefl, drop_all. reflexivity.
  - destruct (Str.drop i s) as [|a t] eqn:Hd.
    { apply (f_equal String.length) in Hd. rewrite drop_length in Hd.
      simpl in Hd. lia. }
    pose proof (drop_succ _ _ _ _ Hd) as Hd'.
    assert (search_from (Chr cls) i s
            = if cls a then Some (MkMatch i (S i) [])
              else search_from (Chr cls) (S i) s) as Hs.
    { unfold search_from.
      replace (String.length s <? i) with false
        by (symmetry; apply Nat.ltb_ge; lia).
      replace (String.length s <? S i) with false
        by (symmetry; apply Nat.ltb_ge; lia).
      rewrite Hd, Hd'. cbn [search]. unfold match_at. cbn [run].
      destruct (cls a); reflexivity. }
    rewrite Hs. cbn [map_chars]. unfold swap at 1.
    destruct (cls a) eqn:Ea.
    + cbn [m_index m_end].
      replace (S i =? i) with false by (symmetry; apply Nat.eqb_neq; lia).
      unfold Str.slice. rewrite Nat.sub_diag. cbn [Str.take].
      rewrite (IH (S i) fuel) by lia. rewrite Hd'. reflexivity.
    + pose proof (IH (S i) (S fuel) ltac:(lia) ltac:(lia) ltac:(lia)) as Hrec.
      cbn [replace_all_from] in Hrec. rewrite Hd' in Hrec.
      destruct (search_from (Chr cls) (S i) s) as [m|] eqn:Em.
      * apply search_from_span in Em as Hspan.
        rewrite (take_cons_slice _ _ _ _ _ Hd) by lia.
        rewrite <- Hrec. reflexivity.
      * rewrite <- Hrec. reflexivity.
Qed.

Lemma map_chars_length f s : String.length (map_chars f s) = String.length s.
Proof. induction s as [|a s IH]; cbn [map_chars String.length]; congruence. Qed.

Lemma existsb_map_swap cls by_ s :
  cls by_ = false -> Str.existsb cls (map_chars (swap cls by_) s) = false.
Proof.
  intros Hb. induction s as [|a s IH]; [reflexivity|].
  cbn [map_chars Str.existsb]. rewrite IH, orb_false_r. unfold swap.
  destruct (cls a) eqn:Ea; [exact Hb|exact Ea].
Qed.

Lemma flat_name_as_map s :
  flat_name s = map_chars (swap (Chars.eqc "/") "_") s.
Proof.
  unfold flat_name, replace_all.
  change (Lit "/") with (Chr (Chars.eqc "/")).
  change (fun _ : rmatch => "_") with (fun _ : rmatch => Str.of_char "_").
  apply (replace_all_chr _ _ s (String.length s) 0); lia.
Qed.

(** X15: the name part of a file name is the name of the record with every [/]
    turned into [_] and every other code unit kept: it has the length of the
    name and holds no separator. *)
Theorem flat_name_is_char_map s :
  flat_name s = map_chars (swap (Chars.eqc "/") "_") s
  /\ String.length (flat_name s) = String.length s
  /\ has_slash (flat_name s) = false.
Proof.
  rewrite flat_name_as_map. split; [reflexivity|]. split.
  - apply map_chars_length.
  - apply existsb_map_swap. reflexivity.
Qed.


(** ** Source maps *)


Lemma forallb_rev_onto p s :
  forall acc,
    Str.forallb p (Str.rev_onto s acc) = Str.forallb p s && Str.forallb p acc.
Proof.
  induction s as [|a s IH]; intros acc; [reflexivity|].
  cbn [Str.rev_onto Str.forallb]. rewrite IH. cbn [Str.forallb].
  destruct (p a), (Str.forallb p s); reflexivity.
Qed.

Lemma rev_onto_rev_onto s :
  forall acc acc',
    Str.rev_onto (Str.rev_onto s acc) acc' = Str.rev_onto acc (s +:+ acc').
Proof.
  induction s as [|a s IH]; intros acc acc'; [reflexivity|].
  cbn [Str.rev_onto]. rewrite IH. reflexivity.
Qed.

Lemma rev_rev s : Str.rev (Str.rev s) = s.
Proof.
  unfold Str.rev. rewrite rev_onto_rev_onto. cbn [Str.rev_onto].
  induction s as [|a s IH]; [reflexivity|].
  rewrite append_cons. f_equal. exact IH.
Qed.

Lemma trim_start_id p s :
  (forall a, p a = true -> Chars.is_space a = false) ->
  Str.forallb p s = true -> Str.trim_start s = s.
Proof.
  intros Hp H. destruct s as [|a s]; [reflexivity|].
  cbn [Str.forallb] in H. apply andb_prop in H as [Ha _].
  cbn [Str.trim_start]. rewrite (Hp a Ha). reflexivity.
Qed.

(** Trimming a text without spaces gives the text. *)
Lemma trim_id s :
  Str.forallb (fun a => negb (Chars.is_space a)) s = true -> Str.trim s = s.
Proof.
  intros H. unfold Str.trim.
  assert (Hp : forall a, negb (Chars.is_space a) = true ->
                         Chars.is_space a = false)
    by (intros a; apply negb_true_iff).
  rewrite (trim_start_id _ s Hp H).
  rewrite (trim_start_id _ (Str.rev s) Hp).
  - apply rev_rev.
  - unfold Str.rev. rewrite forallb_rev_onto, H. reflexivity.
Qed.

(** X16: the URL [extractSourceMapUrl] finds is not empty and holds no white
    space. *)
Theorem source_map_url_is_a_word content url :
  extractSourceMapUrl content = Some url ->
  url <> "" /\ Str.existsb Chars.is_space url = false.
Proof.
  unfold extractSourceMapUrl.
  destruct (search_from source_map_comment 0 content) as [m|] eqn:E;
    [|discriminate].
  intros H. inversion H; subst; clear H.
  unfold search_from in E.
  destruct (String.length content <? 0); [discriminate|].
  apply search_inv in E as (j & _ & E).
  unfold match_at, source_map_comment in E. rewrite run_seq in E.
  apply run_inv in E as (n & c' & _ & _ & E & _).
  apply run_group_plus in E as (n' & Hn1 & Hn2 & Hp & E).
  inversion E; subst; clear E.
  unfold group. cbn [m_caps capture Nat.eqb].
  match goal with
  | |- context [default "" (Some ?x)] => change (default "" (Some x)) with x
  end.
  change (Str.drop 0 content) with content in *.
  rewrite (trim_id _ Hp). split.
  - intros H. pose proof (take_nonempty _ _ Hn1 Hn2) as Hne.
    rewrite H in Hne. discriminate.
  - apply forallb_negb_existsb, Hp.
Qed.

Lemma forallb_swap_plain s :
  Str.forallb is_plain
    (map_chars (swap (fun a => negb (is_plain a)) "_") s) = true.
Proof.
  induction s as [|a s IH]; [reflexivity|].
  cbn [map_chars Str.forallb]. rewrite IH, andb_true_r. unfold swap.
  destruct (is_plain a) eqn:Ea; [exact Ea|reflexivity].
Qed.

(** X17: the file name [generateFilenameFromUrl] makes of a URL holds only
    letters, digits, [_], [.] and [-]: no separator, whatever the path of
    the URL. *)
Theorem generated_filename_is_plain pathname rawUrl filename :
  generateFilenameFromUrl pathname rawUrl = Some filename ->
  Str.forallb is_plain filename = true.
Proof.
  unfold generateFilenameFromUrl. destruct (pathname _); [|discriminate].
  intros H. inversion H; subst; clear H. unfold replace_all.
  change (fun _ : rmatch => "_") with (fun _ : rmatch => Str.of_char "_").
  match goal with
  | |- context [replace_all_from _ _ _ ?joined 0] =>
      rewrite (replace_all_chr _ _ joined (String.length joined) 0) by lia
  end.
  apply forallb_swap_plain.
Qed.

Lemma search_anchored r s :
  forall pos, 0 < pos -> search (Seq Bol r) pos s = None.
Proof.
  induction s as [|a s IH]; intros pos Hpos; cbn [search];
    unfold match_at; cbn [run];
    replace (pos =? 0) with false by (symmetry; apply Nat.eqb_neq; lia).
  - reflexivity.
  - apply IH. lia.
Qed.

(** A pattern that starts with [^] and does not match at the start leaves
    the text alone. *)
Lemma replace_once_anchored_miss r by_ s :
  match_at (Seq Bol r) 0 s = None -> replace_once (Seq Bol r) by_ s = s.
Proof.
  intros H. unfold replace_once, search_from.
  change (String.length s <? 0) with false. cbv iota.
  change (Str.drop 0 s) with s.
  destruct s as [|a s]; cbn [search]; rewrite H; [reflexivity|].
  rewrite search_anchored by lia. reflexivity.
Qed.

(** X18: [normalizePath] leaves a path that starts with a dot as it is, and
    of a path made of the scheme [webpack://] and a rest that starts with
    [/.] it takes out the scheme only: a source path that starts with [../]
    keeps these segments. *)
Theorem normalizePath_keeps_dot_segments rest :
  normalizePath (String "." rest) = String "." rest
  /\ normalizePath ("webpack:///." +:+ rest) = "/." +:+ rest.
Proof.
  unfold normalizePath. cbn [seqs]. split.
  - rewrite (replace_once_anchored_miss _ _ (String "." rest)) by reflexivity.
    rewrite (replace_once_anchored_miss _ _ (String "." rest)) by reflexivity.
    rewrite (replace_once_anchored_miss _ _ (String "." rest)) by reflexivity.
    rewrite (replace_once_anchored_miss _ _ (String "." rest)) by reflexivity.
    reflexivity.
  - assert (replace_once
              (Seq Bol
                 (Seq (Group 1 (alts (Lit "webpack") [Lit "bundle"; Lit "app"]))
                    (Lit "://")))
              (fun _ => "") ("webpack:///." +:+ rest) = "/." +:+ rest) as ->
        by reflexivity.
    rewrite (replace_once_anchored_miss _ _ ("/." +:+ rest)) by reflexivity.
    rewrite (replace_once_anchored_miss _ _ ("/." +:+ rest)) by reflexivity.
    rewrite (replace_once_anchored_miss _ _ ("/." +:+ rest)) by reflexivity.
    reflexivity.
Qed.

(** ** Output paths *)

Lemma split_nonempty sep s : split sep s <> [].
Proof.
  destruct s as [|a s]; [discriminate|]. cbn [split].
  destruct (Chars.eqc sep a); [discriminate|].
  destruct (split sep s); discriminate.
Qed.

Lemma split_plain s : has_slash s = false -> split "/" s = [s].
Proof.
  unfold has_slash. induction s as [|a s IH]; intros H; [reflexivity|].
  cbn [Str.existsb] in H. apply orb_false_elim in H as [Ha H].
  cbn [split]. rewrite Ha, (IH H). reflexivity.
Qed.

Lemma split_append s t :
  split "/" (s +:+ "/" +:+ t) = split "/" s ++ split "/" t.
Proof.
  induction s as [|a s IH].
  - reflexivity.
  - rewrite append_cons. cbn [split]. rewrite IH.
    destruct (Chars.eqc "/" a); [reflexivity|].
    destruct (split "/" s) as [|piece pieces] eqn:E; [|reflexivity].
    exfalso. exact (split_nonempty _ _ E).
Qed.

Lemma keep_app allowAboveRoot l1 l2 :
  forall kept,
    Path.keep allowAboveRoot (l1 ++ l2) kept
    = Path.keep allowAboveRoot l2 (Path.keep allowAboveRoot l1 kept).
Proof.
  induction l1 as [|segment l1 IH]; intros kept; [reflexivity|].
  cbn [app Path.keep].
  destruct (Js.str_eqb segment "" || Js.str_eqb segment "."); [apply IH|].
  destruct (Js.str_eqb segment ".."); [|apply IH].
  destruct kept as [|top below]; [apply IH|].
  destruct (Js.str_eqb top ".."); apply IH.
Qed.

Lemma str_eqb_length a b :
  String.length a <> String.length b -> Js.str_eqb a b = false.
Proof.
  intros H. unfold Js.str_eqb. apply String.eqb_neq. intros ->. apply H.
  reflexivity.
Qed.

Lemma keep_plain allowAboveRoot f kept :
  3 <= String.length f ->
  Path.keep allowAboveRoot [f] kept = f :: kept.
Proof.
  intros H. cbn [Path.keep].
  rewrite !str_eqb_length by (simpl; lia). reflexivity.
Qed.

Lemma join_snoc sep l f :
  Js.join sep (l ++ [f])
  = match l with [] => f | _ => Js.join sep l +:+ sep +:+ f end.
Proof.
  induction l as [|s l IH]; [reflexivity|].
  destruct l as [|t l]; [reflexivity|].
  change ((s :: t :: l) ++ [f]) with (s :: ((t :: l) ++ [f])).
  change (Js.join sep (s :: (t :: l) ++ [f]))
    with (s +:+ sep +:+ Js.join sep ((t :: l) ++ [f])).
  rewrite IH.
  change (Js.join sep (s :: t :: l)) with (s +:+ sep +:+ Js.join sep (t :: l)).
  rewrite !append_assoc. reflexivity.
Qed.

Lemma ends_with_append a s f :
  f <> "" -> Path.ends_with a (s +:+ f) = Path.ends_with a f.
Proof.
  intros Hf. induction s as [|b s IH]; [reflexivity|].
  rewrite append_cons. cbn [Path.ends_with].
  destruct (s +:+ f) eqn:E; [|exact IH].
  destruct s; [|discriminate]. exfalso. apply Hf. exact E.
Qed.

Lemma ends_with_plain f : has_slash f = false -> Path.ends_with "/" f = false.
Proof.
  unfold has_slash. induction f as [|a f IH]; intros H; [reflexivity|].
  cbn [Str.existsb] in H. apply orb_false_elim in H as [Ha H].
  cbn [Path.ends_with]. destruct f; [exact Ha|apply IH, H].
Qed.

Lemma append_empty s f : f <> "" -> Js.str_eqb (s +:+ f) "" = false.
Proof.
  intros Hf. apply str_eqb_length. rewrite append_length. simpl.
  destruct f; [congruence|simpl; lia].
Qed.

Lemma append_nil_r s : s +:+ "" = s.
Proof.
  induction s as [|a s IH]; [reflexivity|]. rewrite append_cons, IH.
  reflexivity.
Qed.

Lemma append_cancel_l s t1 t2 : s +:+ t1 = s +:+ t2 -> t1 = t2.
Proof.
  induction s as [|a s IH]; [exact id|].
  rewrite !append_cons. intros H. inversion H. auto.
Qed.

(** A name without separator, and longer than [..], is joined to a
    directory as it is. *)
Lemma join_plain dir f :
  has_slash f = false -> 3 <= String.length f ->
  Path.join dir f = Path.stem dir +:+ f.
Proof.
  intros Hs Hl.
  assert (Hf : f <> "") by (intros ->; simpl in Hl; lia).
  assert (Hp : Str.is_prefix "/" f = false).
  { destruct f as [|a f]; [reflexivity|]. unfold has_slash in Hs.
    cbn [Str.existsb] in Hs. apply orb_false_elim in Hs as [Ha _].
    cbn [Str.is_prefix]. rewrite Ha. reflexivity. }
  unfold Path.join, Path.stem.
  rewrite (str_eqb_length f "") by (simpl; lia).
  destruct (Js.str_eqb dir "") eqn:Ed.
  - unfold Path.normalize, Path.normalizeString.
    rewrite (str_eqb_length f "") by (simpl; lia).
    rewrite Hp, (ends_with_plain _ Hs), (split_plain _ Hs). cbn [negb].
    rewrite keep_plain by exact Hl. cbn [List.rev app Js.join].
    rewrite (str_eqb_length f "") by (simpl; lia).
    rewrite append_nil_r. reflexivity.
  - assert (Hd : dir <> "") by (intros ->; discriminate).
    unfold Path.normalize, Path.normalizeString.
    rewrite (append_empty dir ("/" +:+ f)) by discriminate.
    assert (Ha : Str.is_prefix "/" (dir +:+ "/" +:+ f) = Str.is_prefix "/" dir).
    { destruct dir as [|a dir]; [congruence|]. reflexivity. }
    rewrite Ha.
    rewrite <- append_assoc, ends_with_append by exact Hf.
    rewrite (ends_with_plain _ Hs).
    rewrite append_assoc, split_append, (split_plain _ Hs), keep_app.
    rewrite keep_plain by exact Hl.
    cbn [List.rev]. rewrite join_snoc.
    set (kept := Path.keep (negb (Str.is_prefix "/" dir)) (split "/" dir) []).
    destruct (List.rev kept) as [|s l] eqn:Er.
    + assert (kept = []) as -> by (destruct kept as [|x k]; [reflexivity|];
        simpl in Er; destruct (List.rev k); discriminate).
      rewrite (str_eqb_length f "") by (simpl; lia).
      destruct (Str.is_prefix "/" dir); rewrite !append_nil_r; reflexivity.
    + assert (kept <> []) by (intros ->; discriminate).
      rewrite append_empty by discriminate.
      destruct kept as [|x k]; [congruence|].
      destruct (Str.is_prefix "/" dir);
        rewrite !append_nil_r, ?append_assoc; reflexivity.
Qed.

Lemma filename_plain d :
  has_slash (Js.to_string (version d)) = false ->
  has_slash (filename d) = false /\ 3 <= String.length (filename d).
Proof.
  intros H. unfold filename. split.
  - unfold has_slash. rewrite !existsb_append.
    rewrite flat_name_as_map, existsb_map_swap by reflexivity.
    unfold has_slash in H. rewrite H. reflexivity.
  - rewrite !append_length. simpl. lia.
Qed.

(** C9 (amended): the output path of a record is [path.join] of the output
    directory and a file name made of the name, with [/] turned into [_],
    and of the version.  For records whose version converts to a text
    without [/] and without [@], two of them are given the same path exactly
    when their names are the same once [/] is turned into [_] and the texts
    of their versions are the same; nothing else keeps the files of two
    records apart. *)
Theorem output_paths_meet outputDir d1 d2 :
  Js.converts (version d1) = true -> Js.converts (version d2) = true ->
  has_slash (Js.to_string (version d1)) = false ->
  has_slash (Js.to_string (version d2)) = false ->
  has_at (Js.to_string (version d1)) = false ->
  has_at (Js.to_string (version d2)) = false ->
  outputPath Path.join outputDir d1 = outputPath Path.join outputDir d2
  <-> flat_name (name d1) = flat_name (name d2)
      /\ Js.to_string (version d1) = Js.to_string (version d2).
Proof.
  intros _ _ Hs1 Hs2 Ha1 Ha2. unfold outputPath.
  destruct (filename_plain d1 Hs1) as [Hp1 Hl1].
  destruct (filename_plain d2 Hs2) as [Hp2 Hl2].
  rewrite !join_plain by assumption. split.
  - intros H. apply append_cancel_l in H. unfold filename in H.
    apply (split_at_last_at _ _ _ _ Ha1 Ha2).
    apply (append_cancel_r _ _ ".js").
    rewrite !append_assoc. exact H.
  - intros [Hn Hv]. unfold filename. rewrite Hn, Hv. reflexivity.
Qed.

(** Why versions with [/] are left out: [path.join] resolves the segments of
    the file name, and the records [a] and [b] at the version [/../x] are
    both written to [x.js]. *)
Lemma version_segments_are_resolved :
  outputPath Path.join "/out"
    (MkDep "a" (Js.JStr "/../x") Js.JUndefined Js.JUndefined "package.json")
  = "/out/x.js"
  /\ outputPath Path.join "/out"
       (MkDep "b" (Js.JStr "/../x") Js.JUndefined Js.JUndefined "package.json")
     = "/out/x.js".
Proof. vm_compute. split; reflexivity. Qed.

Lemma output_paths_meet_witness :
  outputPath Path.join "/out" slashed = outputPath Path.join "/out" underscored
  <-> flat_name (name slashed) = flat_name (name underscored)
      /\ Js.to_string (version slashed) = Js.to_string (version underscored).
Proof.
  apply (output_paths_meet "/out" slashed underscored); reflexivity.
Defined.

(** ** Instances *)

Lemma resolved_download_leaves_validated_file_witness :
  exists data,
    files (snd (downloadDependency all_https fourth_serves no_timer writable
                  Path.join 1 left_pad "/out" (MkWorld ∅ [])))
    = <[outputPath Path.join "/out" left_pad := data]> ∅
    /\ test script_tokens data = true.
Proof.
  apply (resolved_download_leaves_validated_file all_https fourth_serves
           no_timer writable Path.join 1 left_pad "/out" (MkWorld ∅ [])).
  vm_compute. reflexivity.
Defined.

Lemma download_touches_only_output_path_witness :
  files (snd (downloadDependency all_https first_stalls no_timer writable
                Path.join 1 left_pad "/out"
                (MkWorld {[ "/out/README.md" := "notes" ]} [])))
    !! "/out/README.md"
  = files (MkWorld {[ "/out/README.md" := "notes" ]} []) !! "/out/README.md".
Proof.
  apply (download_touches_only_output_path all_https first_stalls no_timer
           writable Path.join 1 left_pad "/out"
           (MkWorld {[ "/out/README.md" := "notes" ]} [])
           (fst (downloadDependency all_https first_stalls no_timer writable
                   Path.join 1 left_pad "/out"
                   (MkWorld {[ "/out/README.md" := "notes" ]} [])))).
  - apply surjective_pairing.
  - vm_compute. discriminate.
Defined.


Lemma exhausted_candidates_reject_witness :
  downloadDependency all_https all_missing no_timer writable Path.join 1
    left_pad "/out" (MkWorld ∅ [])
  = (Rejected "No valid download URL found",
     MkWorld ∅ ([] ++ map target (urls left_pad)))
  /\ length (urls left_pad) = 15.
Proof.
  apply (exhausted_candidates_reject all_https all_missing no_timer writable
           Path.join 0 left_pad "/out" (MkWorld ∅ [])).
  - reflexivity.
  - reflexivity.
  - vm_compute. repeat constructor.
Defined.

Lemma first_valid_candidate_wins_witness :
  try_each all_https fourth_serves no_timer writable 1
    (firstn 3 (urls left_pad)
     ++ "https://unpkg.com/left-pad@1.3.0/dist/left-pad.min.js"
        :: skipn 4 (urls left_pad))
    "/out/left-pad@1.3.0.js" (MkWorld ∅ [])
  = (Resolved true,
     MkWorld (<["/out/left-pad@1.3.0.js"
                := "module.exports = function leftPad() {}"]> ∅)
       ([] ++ map target
                (firstn 3 (urls left_pad)
                 ++ ["https://unpkg.com/left-pad@1.3.0/dist/left-pad.min.js"]))).
Proof.
  apply (first_valid_candidate_wins all_https fourth_serves no_timer writable
           0 (firstn 3 (urls left_pad))
           "https://unpkg.com/left-pad@1.3.0/dist/left-pad.min.js"
           (skipn 4 (urls left_pad)) "/out/left-pad@1.3.0.js" (MkWorld ∅ [])
           None "module.exports = function leftPad() {}").
  - vm_compute. repeat constructor.
  - reflexivity.
  - vm_compute. reflexivity.
  - reflexivity.
  - vm_compute. reflexivity.
Defined.

Lemma unusable_candidate_ends_download_witness :
  try_each scheme_of all_missing no_timer writable 1
    (["https://cdn.example.com/widget@1.2.0/dist/widget.js"]
     ++ "http://static.example.net/widget@1.2.0/widget.js"
        :: ["https://unpkg.com/widget@1.2.0/dist/widget.min.js"])
    "/out/widget@1.2.0.js" (MkWorld ∅ [])
  = (Rejected (protocol_error "http:"),
     MkWorld ∅
       ([] ++ map target
                ["https://cdn.example.com/widget@1.2.0/dist/widget.js"])).
Proof.
  apply (unusable_candidate_ends_download scheme_of all_missing no_timer
           writable 0
           ["https://cdn.example.com/widget@1.2.0/dist/widget.js"]
           "http://static.example.net/widget@1.2.0/widget.js"
           ["https://unpkg.com/widget@1.2.0/dist/widget.min.js"]
           "/out/widget@1.2.0.js" (MkWorld ∅ [])
           (protocol_error "http:")).
  - vm_compute. repeat constructor.
  - vm_compute. reflexivity.
Defined.

Lemma session_touches_only_output_paths_witness :
  files (world_of (download_all all_https two_scripts no_timer writable
                     Path.join 1 [slashed; left_pad] "/out" 0
                     (MkWorld {[ "/out/README.md" := "notes" ]} [])))
    !! "/out/README.md"
  = files (MkWorld {[ "/out/README.md" := "notes" ]} []) !! "/out/README.md".
Proof.
  apply (session_touches_only_output_paths all_https two_scripts no_timer
           writable Path.join 1 [slashed; left_pad] "/out"
           (MkWorld {[ "/out/README.md" := "notes" ]} []) "/out/README.md").
  vm_compute. intros [H|[H|[]]]; discriminate H.
Defined.

Lemma session_tally_counts_files_witness :
  1 = length (filter (fun d =>
                 is_Some (files (world_of
                            (download_all all_https two_scripts no_timer
                               writable Path.join 1 [slashed; left_pad]
                               "/out" 0 (MkWorld ∅ [])))
                          !! outputPath Path.join "/out" d))
                [slashed; left_pad])
  /\ forall d content,
       In d [slashed; left_pad] ->
       files (world_of
                (download_all all_https two_scripts no_timer writable
                   Path.join 1 [slashed; left_pad] "/out" 0 (MkWorld ∅ [])))
       !! outputPath Path.join "/out" d = Some content ->
       test script_tokens content = true.
Proof.
  apply (session_tally_counts_files all_https two_scripts no_timer writable
           Path.join 1 [slashed; left_pad] "/out" (MkWorld ∅ [])).
  - apply (bool_decide_unpack _). vm_compute. exact I.
  - intros d _. apply lookup_empty.
  - intros url statusCode location received. unfold two_scripts.
    repeat destruct (Js.str_eqb _ _); discriminate.
  - vm_compute. reflexivity.
Defined.

Lemma scan_of_distinct_paths_witness :
  findManifestFiles posix_join posix_relative "/work" project
  = flat_map (found posix_join "/work") project.
Proof.
  apply (scan_of_distinct_paths posix_join posix_relative "/work" project).
  apply (bool_decide_unpack _). vm_compute. exact I.
Defined.

Lemma candidates_are_found_witness :
  In (MkManifest "/work/src/index.js" "content")
     (flat_map (found posix_join "/work") project).
Proof.
  apply (candidates_are_found posix_join posix_relative "/work" project).
  vm_compute. right. left. reflexivity.
Defined.

Lemma block_text_never_returns_witness :
  never_returns
    (fun fuel =>
       extractDependencies unit tt vm_throws parser_throws parser_throws fuel
         open_block).
Proof.
  apply (block_text_never_returns unit tt vm_throws parser_throws
           parser_throws open_block).
  - reflexivity.
  - reflexivity.
  - reflexivity.
  - intros _. reflexivity.
  - vm_compute. reflexivity.
Defined.

Lemma json_dependencies_become_records_witness :
  exists dependencies log,
    extractDependencies unit tt vm_throws
      (parser_of left_pad_manifest left_pad_data) parser_throws 5
      left_pad_manifest
    = Done dependencies log
    /\ map (fun r => (name r, version r)) dependencies
       = [("left-pad", Js.JStr "1.3.0")]
    /\ Forall (fun r => source r = "package.json"
                        /\ pathPrefix r = Js.JUndefined
                        /\ baseUrl r = Js.JUndefined) dependencies.
Proof.
  apply (json_dependencies_become_records unit tt vm_throws
           (parser_of left_pad_manifest left_pad_data) parser_throws 5
           left_pad_manifest left_pad_data).
  - reflexivity.
  - reflexivity.
  - vm_compute. reflexivity.
  - reflexivity.
Defined.

Lemma source_map_url_is_a_word_witness :
  "app.js.map" <> "" /\ Str.existsb Chars.is_space "app.js.map" = false.
Proof.
  apply (source_map_url_is_a_word bundle_end "app.js.map").
  vm_compute. reflexivity.
Defined.

Lemma generated_filename_is_plain_witness :
  Str.forallb is_plain "static_js_app_v2.js.map" = true.
Proof.
  apply (generated_filename_is_plain map_path
           "https://example.com/static/js/app v2.js.map"
           "static_js_app_v2.js.map").
  vm_compute. reflexivity.
Defined.
